(** * openai-gpt-image-mcp: request normalisation and response delivery

    A shallow embedding of [src/index.ts]: the size normaliser
    ([parseSize]), the filename sanitiser ([sanitizeFilename]), the input
    classifiers ([absolutePathCheck], [base64Check]), the image input
    resolver ([inputToFile]) and the two tool handlers ([create-image],
    [edit-image]) together with the output routing they share.

    JavaScript strings are sequences of UTF-16 code units; every regular
    expression of the source is written without the [u] flag and therefore
    works code unit by code unit, so a string is modelled as a list of code
    units.  The Node.js library functions the source calls ([Buffer],
    [path], [String.prototype]) are modelled next to the code using them. *)

From Stdlib Require Import List NArith ZArith Bool Lia String Ascii Arith.
From Stdlib.Strings Require Import Byte.
From Stdlib Require Import DecimalString.
Import ListNotations.

Set Implicit Arguments.

(* ------------------------------------------------------------------ *)
(** ** JavaScript strings                                              *)
(* ------------------------------------------------------------------ *)

Module JS.

Local Open Scope N_scope.

(** A UTF-16 code unit and a string of them. *)
Definition codeunit := N.
Definition jsstring := list codeunit.

(** String literals of the source, written as Rocq strings. *)
Definition js (s : string) : jsstring :=
  List.map N_of_ascii (list_ascii_of_string s).

Fixpoint eqb (a b : jsstring) : bool :=
  match a, b with
  | [], [] => true
  | x :: a', y :: b' => (x =? y) && eqb a' b'
  | _, _ => false
  end.

(** [Array.prototype.includes] on an array of strings. *)
Definition includes (xs : list jsstring) (s : jsstring) : bool :=
  existsb (eqb s) xs.

(** [String.prototype.startsWith]. *)
Fixpoint startsWith (s p : jsstring) : bool :=
  match p, s with
  | [], _ => true
  | y :: p', x :: s' => (x =? y) && startsWith s' p'
  | _ :: _, [] => false
  end.

(** A string is truthy when it is not empty. *)
Definition truthy (s : jsstring) : bool :=
  match s with [] => false | _ :: _ => true end.

(** An optional string ([string | undefined]) is truthy when it is present
    and not empty. *)
Definition truthyOpt (o : option jsstring) : bool :=
  match o with Some s => truthy s | None => false end.

Definition in_range (lo hi c : codeunit) : bool := (lo <=? c) && (c <=? hi).

Definition is_upper (c : codeunit) := in_range 65 90 c.
Definition is_lower (c : codeunit) := in_range 97 122 c.
Definition is_digit (c : codeunit) := in_range 48 57 c.
Definition is_alpha (c : codeunit) := is_upper c || is_lower c.
Definition is_alnum (c : codeunit) := is_alpha c || is_digit c.

(** The class [\w] of a regular expression: [[A-Za-z0-9_]]. *)
Definition is_word (c : codeunit) := is_alnum c || (c =? 95).

(** The line terminators, which [.] does not match: LF, CR, LS, PS. *)
Definition is_line_terminator (c : codeunit) : bool :=
  (c =? 10) || (c =? 13) || (c =? 8232) || (c =? 8233).

(** The class [\s]: ECMAScript WhiteSpace and LineTerminator. *)
Definition is_space (c : codeunit) : bool :=
  in_range 9 13 c || (c =? 32) || (c =? 160) || (c =? 5760)
  || in_range 8192 8202 c || (c =? 8232) || (c =? 8233) || (c =? 8239)
  || (c =? 8287) || (c =? 12288) || (c =? 65279).

(** [String.prototype.toLowerCase].  The ASCII letters are folded; of the
    code units outside ASCII only two have a lower case that contains an
    ASCII character, U+212A KELVIN SIGN (to k) and U+0130 (to i followed by
    U+0307), and both are modelled.  Every other code unit outside ASCII
    lowers to code units outside ASCII; the program only ever compares a
    lowered string with ASCII tokens, which cannot observe the difference
    from leaving them as they are. *)
Definition lowerUnit (c : codeunit) : jsstring :=
  if is_upper c then [c + 32]
  else if c =? 8490 then [107]
  else if c =? 304 then [105; 775]
  else [c].

Definition toLowerCase (s : jsstring) : jsstring := flat_map lowerUnit s.

(** [s.replace(/\s+/g, empty)]: every white-space code unit is removed. *)
Definition stripWhitespace (s : jsstring) : jsstring :=
  filter (fun c => negb (is_space c)) s.

(** [s.split(sep)] for a one-unit separator: the pieces between
    occurrences, never an empty array. *)
Fixpoint split (sep : codeunit) (s : jsstring) : list jsstring :=
  match s with
  | [] => [[]]
  | c :: s' =>
      if c =? sep then [] :: split sep s'
      else match split sep s' with
           | p :: ps => (c :: p) :: ps
           | [] => [[c]]
           end
  end.

(** The decimal numeral of a non-negative integer, as template literals
    print it. *)
Definition decimal (n : N) : jsstring :=
  js (NilEmpty.string_of_uint (N.to_uint n)).

End JS.

Import JS.

(* ------------------------------------------------------------------ *)
(** ** Size normaliser                                                 *)
(* ------------------------------------------------------------------ *)

(** What a property read on a plain object can produce: a string the
    program stored, or a member the object inherits from
    [Object.prototype] (a function, or the prototype itself under
    [__proto__]); every such member is truthy and is not a string. *)
Inductive jsvalue :=
| JString (s : jsstring)
| JInherited (name : jsstring).

(** The property names of [Object.prototype]. *)
Definition objectPrototypeNames : list jsstring :=
  List.map js
    [ "constructor"; "__defineGetter__"; "__defineSetter__";
      "hasOwnProperty"; "__lookupGetter__"; "__lookupSetter__";
      "isPrototypeOf"; "propertyIsEnumerable"; "toString"; "valueOf";
      "__proto__"; "toLocaleString" ]%string.

(** The own properties of [aspectRatioMap], in source order. *)
Definition aspectRatioMap : list (jsstring * jsstring) :=
  [ (js "1:1", js "1024x1024");
    (js "square", js "1024x1024");
    (js "16:9", js "1536x1024");
    (js "landscape", js "1536x1024");
    (js "9:16", js "1024x1536");
    (js "portrait", js "1024x1536");
    (js "3:2", js "1536x1024");
    (js "2:3", js "1024x1536");
    (js "4:3", js "1024x1024");
    (js "3:4", js "1024x1024") ].

Fixpoint ownProperty (o : list (jsstring * jsstring)) (k : jsstring)
  : option jsstring :=
  match o with
  | [] => None
  | (k', v) :: o' => if JS.eqb k k' then Some v else ownProperty o' k
  end.

(** [o[k]] on an object literal: the own property if there is one, else
    the member inherited from [Object.prototype], else [undefined]. *)
Definition getProperty (o : list (jsstring * jsstring)) (k : jsstring)
  : option jsvalue :=
  match ownProperty o k with
  | Some v => Some (JString v)
  | None =>
      if includes objectPrototypeNames k then Some (JInherited k) else None
  end.

Definition truthyValue (v : option jsvalue) : bool :=
  match v with
  | Some (JString s) => truthy s
  | Some (JInherited _) => true
  | None => false
  end.

(** The sizes the upstream API accepts. *)
Definition validSizes : list jsstring :=
  [ js "1024x1024"; js "1536x1024"; js "1024x1536"; js "auto" ].

(** [input.toLowerCase().replace(/\s+/g, empty)]. *)
Definition normalized (input : jsstring) : jsstring :=
  stripWhitespace (toLowerCase input).

Definition parseSize (input : jsstring) : jsvalue :=
  if includes validSizes input then JString input
  else
    let normalizedInput := normalized input in
    match getProperty aspectRatioMap normalizedInput with
    | Some v => if truthyValue (Some v) then v else JString input
    | None => JString input
    end.

(* ------------------------------------------------------------------ *)
(** ** Filename sanitiser                                              *)
(* ------------------------------------------------------------------ *)

Local Open Scope N_scope.

(** The class [[\/\\]]. *)
Definition is_separator (c : codeunit) : bool := (c =? 47) || (c =? 92).

(** The control characters the source names, [\x00-\x1f]. *)
Definition is_control (c : codeunit) : bool := c <=? 31.

(** The class of the second replacement: the characters less-than,
    greater-than, colon, double quote, bar, question mark and star, and
    the control characters. *)
Definition is_problematic (c : codeunit) : bool :=
  (c =? 60) || (c =? 62) || (c =? 58) || (c =? 34) || (c =? 124)
  || (c =? 63) || (c =? 42) || is_control c.

(** The class [[\s.]]. *)
Definition is_dot_or_space (c : codeunit) : bool := is_space c || (c =? 46).

(** [s.replace(/[cls]/g, hyphen)]. *)
Definition replaceWithHyphen (cls : codeunit -> bool) (s : jsstring)
  : jsstring :=
  List.map (fun c => if cls c then 45 else c) s.

Fixpoint dropWhile (cls : codeunit -> bool) (s : jsstring) : jsstring :=
  match s with
  | [] => []
  | c :: s' => if cls c then dropWhile cls s' else s
  end.

(** [s.replace(/^[cls]+|[cls]+$/g, empty)]: the leading run and the trailing
    run of the class are removed. *)
Definition trimClass (cls : codeunit -> bool) (s : jsstring) : jsstring :=
  rev (dropWhile cls (rev (dropWhile cls s))).

Definition sanitizeFilename (filename : jsstring) : jsstring :=
  let sanitized := replaceWithHyphen is_separator filename in
  let sanitized := replaceWithHyphen is_problematic sanitized in
  let sanitized := trimClass is_dot_or_space sanitized in
  let sanitized :=
    if (200 <? List.length sanitized)%nat then firstn 200 sanitized
    else sanitized in
  if negb (truthy sanitized) then js "image" else sanitized.

(* ------------------------------------------------------------------ *)
(** ** Input classification                                            *)
(* ------------------------------------------------------------------ *)

(** The pattern [/^[a-zA-Z]:[/\\]/]. *)
Definition driveLetterPrefix (val : jsstring) : bool :=
  match val with
  | l :: c :: sl :: _ => is_alpha l && (c =? 58) && is_separator sl
  | _ => false
  end.

Definition absolutePathCheck (val : option jsstring) : bool :=
  if negb (truthyOpt val) then true
  else match val with
       | Some v =>
           if startsWith v (js "/") then true
           else if driveLetterPrefix v then true
           else false
       | None => true
       end.

(** The class [[A-Za-z0-9+/=\r\n]]. *)
Definition is_base64_text (c : codeunit) : bool :=
  is_alnum c || (c =? 43) || (c =? 47) || (c =? 61) || (c =? 13)
  || (c =? 10).

Definition base64Check (val : option jsstring) : bool :=
  truthyOpt val
  && match val with
     | Some v => forallb is_base64_text v || startsWith v (js "data:image/")
     | None => false
     end.

(* ------------------------------------------------------------------ *)
(** ** Node's [Buffer] with the base64 encoding                        *)
(* ------------------------------------------------------------------ *)

Module Base64.

Definition sextetChar (n : N) : codeunit :=
  if n <? 26 then 65 + n
  else if n <? 52 then 71 + n
  else if n <? 62 then n - 4
  else if n =? 62 then 43
  else 47.

(** [buf.toString] with the base64 encoding: RFC 4648, with padding. *)
Fixpoint encode (B : list byte) : jsstring :=
  match B with
  | [] => []
  | [a] =>
      let x := Byte.to_N a in
      [sextetChar (x / 4); sextetChar ((x mod 4) * 16); 61; 61]
  | [a; b] =>
      let x := Byte.to_N a in
      let y := Byte.to_N b in
      [sextetChar (x / 4); sextetChar ((x mod 4) * 16 + y / 16);
       sextetChar ((y mod 16) * 4); 61]
  | a :: b :: c :: rest =>
      let x := Byte.to_N a in
      let y := Byte.to_N b in
      let z := Byte.to_N c in
      sextetChar (x / 4) :: sextetChar ((x mod 4) * 16 + y / 16)
        :: sextetChar ((y mod 16) * 4 + z / 64) :: sextetChar (z mod 64)
        :: encode rest
  end.

(** The value of a code unit in the alphabet; Node's decoder reads the
    URL-safe [-] and [_] as well. *)
Definition unbase64 (c : codeunit) : option N :=
  if is_upper c then Some (c - 65)
  else if is_lower c then Some (c - 71)
  else if is_digit c then Some (c + 4)
  else if (c =? 43) || (c =? 45) then Some 62
  else if (c =? 47) || (c =? 95) then Some 63
  else None.

(** Node's decoder skips code units outside the alphabet and stops at the
    first [=]. *)
Fixpoint sextets (s : jsstring) : list N :=
  match s with
  | [] => []
  | c :: s' =>
      match unbase64 c with
      | Some v => v :: sextets s'
      | None => if c =? 61 then [] else sextets s'
      end
  end.

Definition byteOfN (n : N) : byte :=
  match Byte.of_N (n mod 256) with
  | Some b => b
  | None => x00
  end.

Fixpoint groups (v : list N) : list byte :=
  match v with
  | s1 :: s2 :: s3 :: s4 :: rest =>
      byteOfN (s1 * 4 + s2 / 16) :: byteOfN ((s2 mod 16) * 16 + s3 / 4)
        :: byteOfN ((s3 mod 4) * 64 + s4) :: groups rest
  | [s1; s2; s3] =>
      [byteOfN (s1 * 4 + s2 / 16); byteOfN ((s2 mod 16) * 16 + s3 / 4)]
  | [s1; s2] => [byteOfN (s1 * 4 + s2 / 16)]
  | _ => []
  end.

(** [Buffer.from(s, base64)]. *)
Definition decode (s : jsstring) : list byte := groups (sextets s).

Definition endsWithPad (s : jsstring) (bytes : nat) : bool :=
  match bytes with
  | O => false
  | S i => match nth_error s i with
           | Some c => c =? 61
           | None => false
           end
  end.

(** [Buffer.byteLength(s, base64)]: Node does not decode, it takes the
    length of the string, discounts up to two trailing [=] and scales by
    3/4.  (The scaling is [(bytes * 3) >>> 2]; a V8 string is shorter than
    2^29 code units, so the 32-bit coercion never wraps.) *)
Definition unpaddedLength (s : jsstring) : nat :=
  let bytes := List.length s in
  let bytes := if endsWithPad s bytes then pred bytes else bytes in
  if (1 <? bytes)%nat && endsWithPad s bytes then pred bytes else bytes.

Definition byteLength (s : jsstring) : N :=
  (N.of_nat (unpaddedLength s) * 3) / 4.

End Base64.

(* ------------------------------------------------------------------ *)
(** ** Node's [path] module (POSIX flavour)                            *)
(* ------------------------------------------------------------------ *)

Module Path.

Local Open Scope Z_scope.

Record ParsedPath := {
  root : jsstring;
  dir : jsstring;
  base : jsstring;
  ext : jsstring;
  name : jsstring
}.

(** [s.slice(a, b)] for indices inside the string. *)
Definition slice (s : jsstring) (a b : Z) : jsstring :=
  firstn (Z.to_nat (b - a)) (skipn (Z.to_nat a) s).

Record ScanState := {
  startDot : Z;
  startPart : Z;
  endIdx : Z;
  matchedSlash : bool;
  preDotState : Z
}.

(** The loop of [posix.parse], which walks the path from its last code
    unit down to [start]; [todo] lists the indices still to visit with
    the code unit found there. *)
Fixpoint scan (todo : list (Z * codeunit)) (st : ScanState) : ScanState :=
  match todo with
  | [] => st
  | (i, code) :: rest =>
      if (code =? 47)%N then
        if negb (matchedSlash st) then
          {| startDot := startDot st; startPart := i + 1;
             endIdx := endIdx st; matchedSlash := matchedSlash st;
             preDotState := preDotState st |}
        else scan rest st
      else
        let st1 :=
          if endIdx st =? -1 then
            {| startDot := startDot st; startPart := startPart st;
               endIdx := i + 1; matchedSlash := false;
               preDotState := preDotState st |}
          else st in
        let st2 :=
          if (code =? 46)%N then
            if startDot st1 =? -1 then
              {| startDot := i; startPart := startPart st1;
                 endIdx := endIdx st1; matchedSlash := matchedSlash st1;
                 preDotState := preDotState st1 |}
            else if negb (preDotState st1 =? 1) then
              {| startDot := startDot st1; startPart := startPart st1;
                 endIdx := endIdx st1; matchedSlash := matchedSlash st1;
                 preDotState := 1 |}
            else st1
          else if negb (startDot st1 =? -1) then
            {| startDot := startDot st1; startPart := startPart st1;
               endIdx := endIdx st1; matchedSlash := matchedSlash st1;
               preDotState := -1 |}
          else st1 in
        scan rest st2
  end.

Fixpoint indexed (i : Z) (s : jsstring) : list (Z * codeunit) :=
  match s with
  | [] => []
  | c :: s' => (i, c) :: indexed (i + 1) s'
  end.

(** [path.parse]. *)
Definition parse (path : jsstring) : ParsedPath :=
  match path with
  | [] => {| root := []; dir := []; base := []; ext := []; name := [] |}
  | c0 :: _ =>
      let isAbsolute := (c0 =? 47)%N in
      let start := if isAbsolute then 1 else 0 in
      let todo := rev (skipn (Z.to_nat start) (indexed 0 path)) in
      let st :=
        scan todo
          {| startDot := -1; startPart := 0; endIdx := -1;
             matchedSlash := true; preDotState := 0 |} in
      let from :=
        if (startPart st =? 0) && isAbsolute then 1 else startPart st in
      let whole :=
        (startDot st =? -1) || (preDotState st =? 0)
        || ((preDotState st =? 1) && (startDot st =? endIdx st - 1)
            && (startDot st =? startPart st + 1)) in
      let found := negb (endIdx st =? -1) in
      {| root := if isAbsolute then js "/" else [];
         dir :=
           if 0 <? startPart st then slice path 0 (startPart st - 1)
           else if isAbsolute then js "/" else [];
         base := if found then slice path from (endIdx st) else [];
         ext :=
           if found && negb whole then slice path (startDot st) (endIdx st)
           else [];
         name :=
           if found then
             if whole then slice path from (endIdx st)
             else slice path from (startDot st)
           else [] |}
  end.

(** The segments of a path between its separators. *)
Definition segments (path : jsstring) : list jsstring := JS.split 47%N path.

(** [normalizeString]: empty segments and [.] are dropped, [..] removes
    the segment before it, or is kept when there is none to remove and
    the path is relative.  [acc] holds the kept segments, last first. *)
Fixpoint resolveDots (allowAboveRoot : bool) (segs acc : list jsstring)
  : list jsstring :=
  match segs with
  | [] => rev acc
  | seg :: rest =>
      if JS.eqb seg [] || JS.eqb seg (js ".") then
        resolveDots allowAboveRoot rest acc
      else if JS.eqb seg (js "..") then
        match acc with
        | top :: acc' =>
            if JS.eqb top (js "..") then
              resolveDots allowAboveRoot rest
                (if allowAboveRoot then seg :: acc else acc)
            else resolveDots allowAboveRoot rest acc'
        | [] =>
            resolveDots allowAboveRoot rest
              (if allowAboveRoot then [seg] else [])
        end
      else resolveDots allowAboveRoot rest (seg :: acc)
  end.

Fixpoint joinWith (sep : jsstring) (parts : list jsstring) : jsstring :=
  match parts with
  | [] => []
  | [p] => p
  | p :: ps => p ++ sep ++ joinWith sep ps
  end.

(** [path.normalize]. *)
Definition normalize (path : jsstring) : jsstring :=
  match path with
  | [] => js "."
  | c0 :: _ =>
      let isAbsolute := (c0 =? 47)%N in
      let trailingSeparator :=
        match rev path with
        | cl :: _ => (cl =? 47)%N
        | [] => false
        end in
      let res :=
        joinWith (js "/")
          (resolveDots (negb isAbsolute) (segments path) []) in
      match res with
      | [] =>
          if isAbsolute then js "/"
          else if trailingSeparator then js "./" else js "."
      | _ :: _ =>
          let res := if trailingSeparator then res ++ js "/" else res in
          if isAbsolute then js "/" ++ res else res
      end
  end.

(** [path.join]: the non-empty arguments, joined by [/] and normalised. *)
Definition join (args : list jsstring) : jsstring :=
  match filter truthy args with
  | [] => js "."
  | parts => normalize (joinWith (js "/") parts)
  end.

End Path.

(* ------------------------------------------------------------------ *)
(** ** Tool arguments                                                  *)
(* ------------------------------------------------------------------ *)

Inductive Background := BgTransparent | BgOpaque | BgAuto.
Inductive Moderation := ModAuto | ModLow.
Inductive OutputFormat := Png | Jpeg | Webp.
Inductive Quality := QAuto | QHigh | QMedium | QLow.
Inductive OutputMode := Base64Output | FileOutput.

(** The arguments of [create-image]; [model] is a literal and is left
    out.  [size] is kept as the raw string: the handler normalises and
    checks it itself. *)
Record CreateArgs := {
  c_prompt : jsstring;
  c_background : option Background;
  c_moderation : option Moderation;
  c_n : option Z;
  c_output_compression : option Z;
  c_output_format : option OutputFormat;
  c_quality : option Quality;
  c_size : option jsstring;
  c_user : option jsstring;
  c_output : option OutputMode;
  c_file_output : option jsstring;
  c_filename : option jsstring
}.

(** The arguments of [edit-image]. *)
Record EditArgs := {
  e_image : jsstring;
  e_prompt : jsstring;
  e_mask : option jsstring;
  e_n : option Z;
  e_quality : option Quality;
  e_size : option jsstring;
  e_user : option jsstring;
  e_output : option OutputMode;
  e_file_output : option jsstring;
  e_filename : option jsstring
}.

(** One issue of a failed schema validation: the field it is attached
    to and what was violated. *)
Inductive Violation :=
| TooLong
| OutOfRange
| NotInEnum
| Refinement (message : jsstring).

Record Issue := { issuePath : jsstring; violation : Violation }.

Inductive InputField := ImageField | MaskField.

(** The ways an invocation fails, one constructor per place it is
    raised. *)
Inductive Error :=
| InvalidArguments (issues : list Issue)
    (* the server checked the arguments against the registered shape *)
| ZodError (issues : list Issue)
    (* [editImageSchema.parse] threw *)
| InvalidSize (sizeRaw : jsstring)
| TransparentFormat
| InvalidInput (field : InputField)
| UpstreamError
| FsError (path : jsstring).

Definition fieldName (f : InputField) : jsstring :=
  match f with ImageField => js "image" | MaskField => js "mask" end.

(** The message of the [Error] objects the handlers construct. *)
Definition thrownMessage (e : Error) : option jsstring :=
  match e with
  | InvalidSize sizeRaw =>
      Some (js "Invalid size '" ++ sizeRaw
            ++ js "'. Supported sizes: 1024x1024, 1536x1024, 1024x1536, auto. "
            ++ js "Also accepts aspect ratios: 1:1, 16:9, 9:16, square, landscape, portrait, 3:2, 2:3, 4:3, 3:4.")
  | TransparentFormat =>
      Some (js "If background is 'transparent', output_format must be 'png' or 'webp'")
  | InvalidInput f =>
      Some (js "Invalid '" ++ fieldName f
            ++ js "' input: Must be an absolute path or a base64-encoded string.")
  | _ => None
  end.

(** The error kinds of the specification. *)
Inductive ErrorKind :=
| InvalidParameterKind
| InvalidInputKind
| UpstreamFailureKind
| FilesystemFailureKind.

Definition errorKind (e : Error) : ErrorKind :=
  match e with
  | InvalidArguments _ | ZodError _ | InvalidSize _ | TransparentFormat =>
      InvalidParameterKind
  | InvalidInput _ => InvalidInputKind
  | UpstreamError => UpstreamFailureKind
  | FsError _ => FilesystemFailureKind
  end.

(* ------------------------------------------------------------------ *)
(** ** Schemas                                                         *)
(* ------------------------------------------------------------------ *)

Definition issueIf (failed : bool) (field : string) (v : Violation)
  : list Issue :=
  if failed then [{| issuePath := js field; violation := v |}] else [].

Definition optZ (ok : Z -> bool) (o : option Z) : bool :=
  match o with Some z => ok z | None => true end.

Definition optStr (ok : jsstring -> bool) (o : option jsstring) : bool :=
  match o with Some s => ok s | None => true end.

(** The refinement attached to the [file_output] field of
    [createImageSchema]. *)
Definition createFileOutputRefine (val : jsstring) : bool :=
  if negb (truthy val) then true
  else if startsWith val (js "/") then true
  else if driveLetterPrefix val then true
  else false.

(** The issues of the shape of [createImageSchema], which is what
    [server.tool] is given; the refinement of the whole object is not part
    of the shape. *)
Definition createShapeIssues (a : CreateArgs) : list Issue :=
  issueIf (32000 <? N.of_nat (List.length (c_prompt a))) "prompt" TooLong
  ++ issueIf (negb (optZ (fun z => (1 <=? z) && (z <=? 10))%Z (c_n a)))
       "n" OutOfRange
  ++ issueIf
       (negb (optZ (fun z => (0 <=? z) && (z <=? 100))%Z
                (c_output_compression a)))
       "output_compression" OutOfRange
  ++ issueIf (negb (optStr (includes validSizes) (c_size a))) "size" NotInEnum
  ++ issueIf (negb (optStr createFileOutputRefine (c_file_output a)))
       "file_output" (Refinement (js "file_output must be an absolute path")).

(** The refinement of [createImageSchema] as a whole.  No code path
    evaluates it: the handler is registered with the bare shape and never
    parses its arguments again. *)
Definition createImageSchemaRefine (a : CreateArgs) : bool :=
  match c_output a with
  | Some FileOutput =>
      match c_file_output a with
      | None => false
      | Some p =>
          if startsWith p (js "/") then true
          else if driveLetterPrefix p then true
          else false
      end
  | _ => true
  end.

(** The issues of [editImageBaseSchema]. *)
Definition editShapeIssues (a : EditArgs) : list Issue :=
  issueIf (32000 <? N.of_nat (List.length (e_prompt a))) "prompt" TooLong
  ++ issueIf (negb (optZ (fun z => (1 <=? z) && (z <=? 10))%Z (e_n a)))
       "n" OutOfRange
  ++ issueIf (negb (optStr (includes validSizes) (e_size a))) "size" NotInEnum
  ++ issueIf
       (negb (optStr (fun p => absolutePathCheck (Some p)) (e_file_output a)))
       "file_output" (Refinement (js "Path must be absolute")).

(** The [.default] of the [output] field, which parsing fills in. *)
Definition outputOrDefault (o : option OutputMode) : OutputMode :=
  match o with Some m => m | None => Base64Output end.

Definition createWithDefaults (a : CreateArgs) : CreateArgs :=
  {| c_prompt := c_prompt a; c_background := c_background a;
     c_moderation := c_moderation a; c_n := c_n a;
     c_output_compression := c_output_compression a;
     c_output_format := c_output_format a; c_quality := c_quality a;
     c_size := c_size a; c_user := c_user a;
     c_output := Some (outputOrDefault (c_output a));
     c_file_output := c_file_output a; c_filename := c_filename a |}.

Definition editWithDefaults (a : EditArgs) : EditArgs :=
  {| e_image := e_image a; e_prompt := e_prompt a; e_mask := e_mask a;
     e_n := e_n a; e_quality := e_quality a; e_size := e_size a;
     e_user := e_user a;
     e_output := Some (outputOrDefault (e_output a));
     e_file_output := e_file_output a; e_filename := e_filename a |}.

(** The refinement of [editImageSchema]; it sees the parsed object, whose
    [output] has its default. *)
Definition editImageSchemaRefine (a : EditArgs) : bool :=
  match outputOrDefault (e_output a) with
  | FileOutput =>
      match e_file_output a with
      | None => false
      | Some p => absolutePathCheck (Some p)
      end
  | Base64Output => true
  end.

(** [editImageSchema.parse]: the issues of the base schema, and that of
    the refinement unless an enum mismatch aborted the object. *)
Definition editImageSchemaParse (a : EditArgs) : Error + EditArgs :=
  let aborted := negb (optStr (includes validSizes) (e_size a)) in
  let issues :=
    editShapeIssues a
    ++ (if negb aborted && negb (editImageSchemaRefine a) then
          [{| issuePath := js "file_output";
              violation :=
                Refinement
                  (js "file_output must be an absolute path when output is 'file_output'") |}]
        else []) in
  match issues with
  | [] => inr (editWithDefaults a)
  | _ :: _ => inl (ZodError issues)
  end.

(* ------------------------------------------------------------------ *)
(** ** The world of a handler and its effects                          *)
(* ------------------------------------------------------------------ *)

(** A file as [toFile] builds it for the upstream request. *)
Record ImageFile := {
  fileBytes : list byte;
  fileName : option jsstring;
  fileType : jsstring
}.

(** The request of [openai.images.generate]. *)
Record ImageParams := {
  ip_prompt : jsstring;
  ip_background : option Background;
  ip_moderation : option Moderation;
  ip_n : option Z;
  ip_output_format : option OutputFormat;
  ip_quality : option Quality;
  ip_size : option jsstring;
  ip_user : option jsstring;
  ip_output_compression : option Z
}.

(** The request of [openai.images.edit]. *)
Record EditParams := {
  ep_image : ImageFile;
  ep_prompt : jsstring;
  ep_mask : option ImageFile;
  ep_n : option Z;
  ep_quality : option Quality;
  ep_size : option jsstring;
  ep_user : option jsstring
}.

(** What a handler can observe of its environment.  The upstream calls
    answer with the [b64_json] strings of [result.data], or raise
    ([None]).  The client is taken to be configured, so that [new OpenAI()]
    succeeds. *)
Record World := {
  homedir : jsstring;
  MCP_HF_WORK_DIR : option jsstring;
  dateNow : N;
  mkdirSucceeds : jsstring -> bool;
  fileContents : jsstring -> option (list byte);
  writeSucceeds : jsstring -> bool;
  imagesGenerate : ImageParams -> option (list jsstring);
  imagesEdit : EditParams -> option (list jsstring)
}.

(** The effects of a handler, in the order they happen. *)
Inductive Event :=
| Mkdir (dir : jsstring)
| ReadFile (path : jsstring)
| Generate (params : ImageParams)
| Edit (params : EditParams)
| WriteFile (path : jsstring) (data : list byte).

(** A computation reads the world, extends the trace of effects and
    either fails or returns. *)
Definition M (A : Type) : Type :=
  World -> list Event -> list Event * (Error + A).

Definition ret {A} (a : A) : M A := fun _ tr => (tr, inr a).

Definition throw {A} (e : Error) : M A := fun _ tr => (tr, inl e).

Definition bind {A B} (m : M A) (k : A -> M B) : M B :=
  fun w tr =>
    match m w tr with
    | (tr', inl e) => (tr', inl e)
    | (tr', inr a) => k a w tr'
    end.

Notation "x <- m ;; k" := (bind m (fun x => k))
  (at level 61, m at next level, right associativity).
Notation "m ;;; k" := (bind m (fun _ => k))
  (at level 61, right associativity).

Definition ask : M World := fun w tr => (tr, inr w).

Definition emit (e : Event) : M unit := fun _ tr => (tr ++ [e], inr tt).

Definition run {A} (m : M A) (w : World) : list Event * (Error + A) :=
  m w [].

(** [fs.promises.mkdir(dir, recursive)]; reports whether it succeeded. *)
Definition mkdir (d : jsstring) : M bool :=
  w <- ask ;; emit (Mkdir d) ;;; ret (mkdirSucceeds w d).

(** [fs.writeFile(path, data)]. *)
Definition writeFile (p : jsstring) (data : list byte) : M unit :=
  w <- ask ;;
  emit (WriteFile p data) ;;;
  if writeSucceeds w p then ret tt else throw (FsError p).

(** Reading [fs.createReadStream(path)] to its end, as [toFile] does. *)
Definition readStream (p : jsstring) : M (list byte) :=
  w <- ask ;;
  emit (ReadFile p) ;;;
  match fileContents w p with
  | Some bytes => ret bytes
  | None => throw (FsError p)
  end.

Definition generate (params : ImageParams) : M (list jsstring) :=
  w <- ask ;;
  emit (Generate params) ;;;
  match imagesGenerate w params with
  | Some data => ret data
  | None => throw UpstreamError
  end.

Definition edit (params : EditParams) : M (list jsstring) :=
  w <- ask ;;
  emit (Edit params) ;;;
  match imagesEdit w params with
  | Some data => ret data
  | None => throw UpstreamError
  end.

(* ------------------------------------------------------------------ *)
(** ** Output routing                                                  *)
(* ------------------------------------------------------------------ *)

Definition getDefaultOutputDir : M jsstring :=
  w <- ask ;;
  let defaultDir := Path.join [homedir w; js "Pictures"; js "gpt-image"] in
  ok <- mkdir defaultDir ;;
  if ok then ret defaultDir
  else
    ret (if truthyOpt (MCP_HF_WORK_DIR w) then
           match MCP_HF_WORK_DIR w with Some d => d | None => js "/tmp" end
         else js "/tmp").

(** One image of the upstream answer, as the handlers record it. *)
Record Image := {
  b64 : jsstring;
  mimeType : jsstring;
  ext : jsstring
}.

(** One entry of the response. *)
Inductive Content :=
| ImageContent (data : jsstring) (mime : jsstring)
| TextContent (text : jsstring).

Definition MAX_RESPONSE_SIZE : N := 1048576.

Definition totalBase64Size (images : list Image) : N :=
  fold_left (fun sum img => sum + Base64.byteLength (b64 img)) images 0.

(** The mode after the size override. *)
Definition effectiveOutput (output : OutputMode) (images : list Image)
  : OutputMode :=
  match output with
  | Base64Output =>
      if MAX_RESPONSE_SIZE <? totalBase64Size images then FileOutput
      else Base64Output
  | FileOutput => FileOutput
  end.

(** The path in the default directory: the sanitised [filename] when one
    is given, else [prefix] and the clock. *)
Definition defaultFileOutput (prefix : string) (filename : option jsstring)
    (extension : jsstring) : M jsstring :=
  w <- ask ;;
  defaultDir <- getDefaultOutputDir ;;
  let baseFilename :=
    if truthyOpt filename then
      match filename with Some f => sanitizeFilename f | None => [] end
    else js prefix ++ decimal (dateNow w) in
  ret (Path.join [defaultDir; baseFilename ++ js "." ++ extension]).

Definition savedText (filePath : jsstring) : Content :=
  TextContent (js "Image saved to: file://" ++ filePath).

Definition inlineContent (images : list Image) : list Content :=
  List.map (fun img => ImageContent (b64 img) (mimeType img)) images.

(** The file of image [i] (counted from 0) in [create-image]: the
    extension is always that of the image. *)
Definition createFilePath (basePath : jsstring) (count : nat) (i : nat)
    (img : Image) : jsstring :=
  let parsed := Path.parse basePath in
  if (1 <? count)%nat then
    Path.join [Path.dir parsed;
               Path.name parsed ++ js "_" ++ decimal (N.of_nat (i + 1))
                 ++ js "." ++ ext img]
  else
    Path.join [Path.dir parsed; Path.name parsed ++ js "." ++ ext img].

(** The file of image [i] in [edit-image]: the extension of the base
    path is used, that of the image when it has none. *)
Definition editFilePath (basePath : jsstring) (count : nat) (i : nat)
    (img : Image) : jsstring :=
  let parsed := Path.parse basePath in
  let ext :=
    if truthy (Path.ext parsed) then Path.ext parsed
    else js "." ++ ext img in
  if (1 <? count)%nat then
    Path.join [Path.dir parsed;
               Path.name parsed ++ js "_" ++ decimal (N.of_nat (i + 1))
                 ++ ext]
  else
    Path.join [Path.dir parsed; Path.name parsed ++ ext].

(** The loop writing the images from index [i] on, one after the other;
    it stops at the first write that fails. *)
Fixpoint writeImages (filePathOf : nat -> Image -> jsstring) (i : nat)
    (images : list Image) : M (list Content) :=
  match images with
  | [] => ret []
  | img :: rest =>
      let filePath := filePathOf i img in
      writeFile filePath (Base64.decode (b64 img)) ;;;
      responses <- writeImages filePathOf (S i) rest ;;
      ret (savedText filePath :: responses)
  end.

(** The routing both handlers end with; they differ in the prefix of the
    default file name, in the extension given to it, and in how the file
    of each image is derived from the base path. *)
Definition deliver (prefix : string) (defaultExt : jsstring)
    (filePathOf : jsstring -> nat -> nat -> Image -> jsstring)
    (output : OutputMode) (file_output filename : option jsstring)
    (images : list Image) : M (list Content) :=
  let overridden :=
    match output with
    | Base64Output => MAX_RESPONSE_SIZE <? totalBase64Size images
    | FileOutput => false
    end in
  effectiveFileOutput <-
    (if overridden && negb (truthyOpt file_output) then
       p <- defaultFileOutput prefix filename defaultExt ;; ret (Some p)
     else ret file_output) ;;
  match effectiveOutput output images with
  | FileOutput =>
      basePath <-
        (if negb (truthyOpt effectiveFileOutput) then
           defaultFileOutput prefix filename defaultExt
         else
           ret (match effectiveFileOutput with Some p => p | None => [] end)) ;;
      writeImages (filePathOf basePath (List.length images)) 0 images
  | Base64Output => ret (inlineContent images)
  end.

(* ------------------------------------------------------------------ *)
(** ** create-image                                                    *)
(* ------------------------------------------------------------------ *)

(** [sizeRaw ? parseSize(sizeRaw) : sizeRaw]. *)
Definition parsedSize (sizeRaw : option jsstring) : option jsvalue :=
  match sizeRaw with
  | Some s => if truthy s then Some (parseSize s) else Some (JString s)
  | None => None
  end.

(** [size && !validSizes.includes(size)]. *)
Definition sizeRejected (size : option jsvalue) : bool :=
  truthyValue size
  && negb match size with
          | Some (JString s) => includes validSizes s
          | _ => false
          end.

(** The [size] field of the upstream request: present when [size] is
    truthy, which after the check above means one of the valid sizes. *)
Definition sizeParam (size : option jsvalue) : option jsstring :=
  match size with
  | Some (JString s) => if truthy s then Some s else None
  | _ => None
  end.

Definition keepTruthyZ (n : option Z) : option Z :=
  match n with
  | Some z => if (z =? 0)%Z then None else Some z
  | None => None
  end.

Definition keepTruthy (s : option jsstring) : option jsstring :=
  if truthyOpt s then s else None.

Definition formatMime (f : option OutputFormat) : jsstring :=
  match f with
  | Some Jpeg => js "image/jpeg"
  | Some Webp => js "image/webp"
  | _ => js "image/png"
  end.

Definition formatExt (f : option OutputFormat) : jsstring :=
  match f with
  | Some Jpeg => js "jpg"
  | Some Webp => js "webp"
  | _ => js "png"
  end.

(** The images a handler makes of the payloads: each [b64_json] with the
    MIME type and the extension the handler settles on. *)
Definition imagesOf (mime extension : jsstring) (data : list jsstring)
  : list Image :=
  List.map (fun b => {| b64 := b; mimeType := mime; ext := extension |}) data.

(** The test on [background] and [output_format]: the background is
    transparent, a format is given, and it is neither png nor webp. *)
Definition transparentMismatch (background : option Background)
    (output_format : option OutputFormat) : bool :=
  match background, output_format with
  | Some BgTransparent, Some f =>
      negb match f with Png | Webp => true | Jpeg => false end
  | _, _ => false
  end.

Definition createImageParams (args : CreateArgs) (size : option jsvalue)
  : ImageParams :=
  {| ip_prompt := c_prompt args;
     ip_background := c_background args;
     ip_moderation := c_moderation args;
     ip_n := keepTruthyZ (c_n args);
     ip_output_format := c_output_format args;
     ip_quality := c_quality args;
     ip_size := sizeParam size;
     ip_user := keepTruthy (c_user args);
     ip_output_compression :=
       match c_output_compression args, c_output_format args with
       | Some q, Some Webp | Some q, Some Jpeg => Some q
       | _, _ => None
       end |}.

Definition firstExt (images : list Image) : jsstring :=
  match images with
  | img :: _ => ext img
  | [] => js "png"
  end.

(** The handler of [create-image] from the upstream call on. *)
Definition createImageBody (args : CreateArgs) (size : option jsvalue)
  : M (list Content) :=
  data <- generate (createImageParams args size) ;;
  let images :=
    imagesOf (formatMime (c_output_format args))
      (formatExt (c_output_format args)) data in
  deliver "openai_image_" (firstExt images) createFilePath
    (outputOrDefault (c_output args)) (c_file_output args)
    (c_filename args) images.

(** The handler registered for [create-image]. *)
Definition createImageHandler (args : CreateArgs) : M (list Content) :=
  let size := parsedSize (c_size args) in
  if sizeRejected size then
    throw (InvalidSize (match c_size args with Some s => s | None => [] end))
  else if transparentMismatch (c_background args) (c_output_format args)
  then throw TransparentFormat
  else createImageBody args size.

(** An invocation of [create-image]: the server checks the arguments
    against the registered shape, fills in the defaults and calls the
    handler. *)
Definition createImage (args : CreateArgs) : M (list Content) :=
  match createShapeIssues args with
  | [] => createImageHandler (createWithDefaults args)
  | issues => throw (InvalidArguments issues)
  end.

(* ------------------------------------------------------------------ *)
(** ** edit-image                                                      *)
(* ------------------------------------------------------------------ *)

Fixpoint takeWhile (cls : codeunit -> bool) (s : jsstring) : jsstring :=
  match s with
  | [] => []
  | c :: s' => if cls c then c :: takeWhile cls s' else []
  end.

(** The MIME type of a path: [input.split('.').pop()?.toLowerCase()]
    selects it. *)
Definition pathMime (input : jsstring) : jsstring :=
  let ext := toLowerCase (last (JS.split 46 input) []) in
  if JS.eqb ext (js "jpg") || JS.eqb ext (js "jpeg") then js "image/jpeg"
  else if JS.eqb ext (js "webp") then js "image/webp"
  else js "image/png".

(** The match of the data-URL pattern of [inputToFile]: the prefix
    [data:], a first group made of [image/] and a non-empty run of word
    characters, the text [;base64,], and a second group running to the
    end of the input, which must hold no line terminator.  Returns the
    two groups. *)
Definition matchDataUrl (input : jsstring) : option (jsstring * jsstring) :=
  if startsWith input (js "data:image/") then
    let rest := skipn 11 input in
    let subtype := takeWhile is_word rest in
    let after := dropWhile is_word rest in
    if truthy subtype && startsWith after (js ";base64,")
       && forallb (fun c => negb (is_line_terminator c)) (skipn 8 after)
    then Some (js "image/" ++ subtype, skipn 8 after)
    else None
  else None.

(** [mime.split("/")[1] || "png"]. *)
Definition mimeSubtype (mime : jsstring) : jsstring :=
  match JS.split 47 mime with
  | _ :: sub :: _ => if truthy sub then sub else js "png"
  | _ => js "png"
  end.

Definition inputToFile (input : jsstring) (idx : N) : M ImageFile :=
  if absolutePathCheck (Some input) then
    bytes <- readStream input ;;
    ret {| fileBytes := bytes; fileName := None;
           fileType := pathMime input |}
  else
    let '(mime, base64) :=
      if startsWith input (js "data:image/") then
        match matchDataUrl input with
        | Some (m, payload) => (m, payload)
        | None => (js "image/png", input)
        end
      else (js "image/png", input) in
    ret {| fileBytes := Base64.decode base64;
           fileName :=
             Some (js "input_" ++ decimal idx ++ js "." ++ mimeSubtype mime);
           fileType := mime |}.

Definition editImageParams (args : EditArgs) (size : option jsvalue)
    (imageFile : ImageFile) (maskFile : option ImageFile) : EditParams :=
  {| ep_image := imageFile;
     ep_prompt := e_prompt args;
     ep_mask := maskFile;
     ep_n := keepTruthyZ (e_n args);
     ep_quality := e_quality args;
     ep_size := sizeParam size;
     ep_user := keepTruthy (e_user args) |}.

(** The handler of [edit-image] once its arguments are validated: the
    inputs are resolved, the upstream API is called and the answer is
    routed. *)
Definition editImageBody (validatedArgs : EditArgs) (size : option jsvalue)
  : M (list Content) :=
  imageFile <- inputToFile (e_image validatedArgs) 0 ;;
  maskFile <-
    (match e_mask validatedArgs with
     | Some maskInput =>
         if truthy maskInput then
           f <- inputToFile maskInput 1 ;; ret (Some f)
         else ret None
     | None => ret None
     end) ;;
  data <- edit (editImageParams validatedArgs size imageFile maskFile) ;;
  let images := imagesOf (js "image/png") (js "png") data in
  deliver "openai_image_edit_" (js "png") editFilePath
    (outputOrDefault (e_output validatedArgs))
    (e_file_output validatedArgs) (e_filename validatedArgs) images.

(** The handler registered for [edit-image]. *)
Definition editImageHandler (args : EditArgs) : M (list Content) :=
  match editImageSchemaParse args with
  | inl e => throw e
  | inr validatedArgs =>
      if negb (absolutePathCheck (Some (e_image validatedArgs)))
         && negb (base64Check (Some (e_image validatedArgs)))
      then throw (InvalidInput ImageField)
      else if truthyOpt (e_mask validatedArgs)
              && negb (absolutePathCheck (e_mask validatedArgs))
              && negb (base64Check (e_mask validatedArgs))
      then throw (InvalidInput MaskField)
      else
        let size := parsedSize (e_size validatedArgs) in
        if sizeRejected size then
          throw (InvalidSize
                   (match e_size validatedArgs with
                    | Some s => s
                    | None => []
                    end))
        else editImageBody validatedArgs size
  end.

(** An invocation of [edit-image]: the server checks the arguments
    against the base shape, fills in the defaults and calls the handler. *)
Definition editImage (args : EditArgs) : M (list Content) :=
  match editShapeIssues args with
  | [] => editImageHandler (editWithDefaults args)
  | issues => throw (InvalidArguments issues)
  end.

(** Whether a trace holds a call of the upstream API. *)
Definition isUpstreamCall (e : Event) : bool :=
  match e with
  | Generate _ | Edit _ => true
  | _ => false
  end.

Definition callsUpstream (tr : list Event) : bool := existsb isUpstreamCall tr.

Definition isWrite (e : Event) : bool :=
  match e with
  | WriteFile _ _ => true
  | _ => false
  end.

(** The files a trace wrote, in order. *)
Fixpoint writtenPaths (tr : list Event) : list jsstring :=
  match tr with
  | [] => []
  | WriteFile p _ :: tr' => p :: writtenPaths tr'
  | _ :: tr' => writtenPaths tr'
  end.

(* ------------------------------------------------------------------ *)
(** ** Vocabulary of the statements                                    *)
(* ------------------------------------------------------------------ *)

(** A call of one of the two registered tools. *)
Inductive ToolCall :=
| CreateImage (args : CreateArgs)
| EditImage (args : EditArgs).

Definition callTool (c : ToolCall) : M (list Content) :=
  match c with
  | CreateImage args => createImage args
  | EditImage args => editImage args
  end.

Definition outputArg (c : ToolCall) : option OutputMode :=
  match c with
  | CreateImage args => c_output args
  | EditImage args => e_output args
  end.

Definition fileOutputArg (c : ToolCall) : option jsstring :=
  match c with
  | CreateImage args => c_file_output args
  | EditImage args => e_file_output args
  end.

Definition withOutput (o : option OutputMode) (c : ToolCall) : ToolCall :=
  match c with
  | CreateImage a =>
      CreateImage
        {| c_prompt := c_prompt a; c_background := c_background a;
           c_moderation := c_moderation a; c_n := c_n a;
           c_output_compression := c_output_compression a;
           c_output_format := c_output_format a; c_quality := c_quality a;
           c_size := c_size a; c_user := c_user a; c_output := o;
           c_file_output := c_file_output a; c_filename := c_filename a |}
  | EditImage a =>
      EditImage
        {| e_image := e_image a; e_prompt := e_prompt a; e_mask := e_mask a;
           e_n := e_n a; e_quality := e_quality a; e_size := e_size a;
           e_user := e_user a; e_output := o;
           e_file_output := e_file_output a; e_filename := e_filename a |}
  end.

Definition filenameArg (c : ToolCall) : option jsstring :=
  match c with
  | CreateImage args => c_filename args
  | EditImage args => e_filename args
  end.

(** How the file of each image is derived from the base path. *)
Definition filePathRule (c : ToolCall)
  : jsstring -> nat -> nat -> Image -> jsstring :=
  match c with
  | CreateImage _ => createFilePath
  | EditImage _ => editFilePath
  end.

(** The prefix of the default file name. *)
Definition defaultPrefix (c : ToolCall) : string :=
  match c with
  | CreateImage _ => "openai_image_"%string
  | EditImage _ => "openai_image_edit_"%string
  end.

(** The MIME type the images of a call are given. *)
Definition imageMime (c : ToolCall) : jsstring :=
  match c with
  | CreateImage args => formatMime (c_output_format args)
  | EditImage _ => js "image/png"
  end.

(** The extension the images of a call are given. *)
Definition imageExt (c : ToolCall) : jsstring :=
  match c with
  | CreateImage args => formatExt (c_output_format args)
  | EditImage _ => js "png"
  end.

(** The payloads the upstream API returned in a run: the answer of the
    world to the upstream request found in the trace. *)
Fixpoint upstreamAnswer (w : World) (tr : list Event)
  : option (list jsstring) :=
  match tr with
  | [] => None
  | Generate p :: _ => imagesGenerate w p
  | Edit p :: _ => imagesEdit w p
  | _ :: tr' => upstreamAnswer w tr'
  end.

(** The sum of the lengths of byte buffers. *)
Definition totalBytes (Bs : list (list byte)) : N :=
  fold_left (fun sum B => sum + N.of_nat (List.length B)) Bs 0.

(** The aggregate size the handlers compute for the payloads. *)
Definition aggregateSize (data : list jsstring) : N :=
  fold_left (fun sum b => sum + Base64.byteLength b) data 0.

(** The inline response for payloads of one MIME type. *)
Definition inlineResponse (mime : jsstring) (data : list jsstring)
  : list Content :=
  List.map (fun b => ImageContent b mime) data.

Definition isFileReference (c : Content) : bool :=
  match c with
  | TextContent t => startsWith t (js "Image saved to: file://")
  | ImageContent _ _ => false
  end.

(** [String.prototype.includes]. *)
Fixpoint jsIncludes (s sub : jsstring) : bool :=
  startsWith s sub
  || match s with
     | [] => false
     | _ :: s' => jsIncludes s' sub
     end.

(** The characters of a plain file label: alphanumerics, hyphen and
    underscore. *)
Definition is_label_char (c : codeunit) : bool :=
  is_alnum c || (c =? 45) || (c =? 95).




(** The files [writeImages] names, in order. *)
Fixpoint filePaths (filePathOf : nat -> Image -> jsstring) (i : nat)
    (images : list Image) : list jsstring :=
  match images with
  | [] => []
  | img :: rest => filePathOf i img :: filePaths filePathOf (S i) rest
  end.

(** The effects that precede the upstream call or the writes: reading the
    inputs and creating the default directory. *)
Definition isPreparation (e : Event) : bool :=
  match e with
  | Mkdir _ | ReadFile _ => true
  | _ => false
  end.

(** The characters the sanitiser never lets through: the separators and
    the class of its second replacement. *)
Definition unsafe (c : codeunit) : bool := is_separator c || is_problematic c.

(** Whether the handler of [edit-image] rejects a field as neither a path
    nor encoded data. *)
Definition rejectedInput (val : jsstring) : bool :=
  negb (absolutePathCheck (Some val)) && negb (base64Check (Some val)).

Definition offending (a : EditArgs) (f : InputField) : bool :=
  match f with
  | ImageField => rejectedInput (e_image a)
  | MaskField =>
      match e_mask a with
      | Some m => rejectedInput m
      | None => false
      end
  end.

(** The control characters of Unicode (general category Cc): U+0000 to
    U+001F, and U+007F DELETE to U+009F. *)
Definition is_control_character (c : codeunit) : bool :=
  (c <=? 31) || ((127 <=? c) && (c <=? 159)).

(** The [size] argument of a call, and the issues the registered shape
    of its tool raises; the handler runs only when there are none. *)
Definition sizeArg (c : ToolCall) : option jsstring :=
  match c with
  | CreateImage args => c_size args
  | EditImage args => e_size args
  end.

Definition shapeIssues (c : ToolCall) : list Issue :=
  match c with
  | CreateImage args => createShapeIssues args
  | EditImage args => editShapeIssues args
  end.






(* ------------------------------------------------------------------ *)
(** ** Sample invocations                                              *)
(* ------------------------------------------------------------------ *)

(** A world in which the upstream API answers every request with the
    given payloads, every directory can be created, every write succeeds
    and no input file exists. *)
Definition sampleWorld (payloads : list jsstring) : World :=
  {| homedir := js "/home/user";
     MCP_HF_WORK_DIR := None;
     dateNow := 1700000000000;
     mkdirSucceeds := fun _ => true;
     fileContents := fun _ => None;
     writeSucceeds := fun _ => true;
     imagesGenerate := fun _ => Some payloads;
     imagesEdit := fun _ => Some payloads |}.

(** [create-image] with a prompt and nothing else. *)
Definition createOnly (prompt : jsstring) : CreateArgs :=
  {| c_prompt := prompt; c_background := None; c_moderation := None;
     c_n := None; c_output_compression := None; c_output_format := None;
     c_quality := None; c_size := None; c_user := None; c_output := None;
     c_file_output := None; c_filename := None |}.

(** [edit-image] with an image, a prompt and nothing else. *)
Definition editOnly (image prompt : jsstring) : EditArgs :=
  {| e_image := image; e_prompt := prompt; e_mask := None; e_n := None;
     e_quality := None; e_size := None; e_user := None; e_output := None;
     e_file_output := None; e_filename := None |}.

Definition createTo (output : OutputMode) (file_output : option jsstring)
    (format : option OutputFormat) (a : CreateArgs) : CreateArgs :=
  {| c_prompt := c_prompt a; c_background := c_background a;
     c_moderation := c_moderation a; c_n := c_n a;
     c_output_compression := c_output_compression a;
     c_output_format := format; c_quality := c_quality a;
     c_size := c_size a; c_user := c_user a; c_output := Some output;
     c_file_output := file_output; c_filename := c_filename a |}.

Definition editTo (output : OutputMode) (file_output : option jsstring)
    (a : EditArgs) : EditArgs :=
  {| e_image := e_image a; e_prompt := e_prompt a; e_mask := e_mask a;
     e_n := e_n a; e_quality := e_quality a; e_size := e_size a;
     e_user := e_user a; e_output := Some output;
     e_file_output := file_output; e_filename := e_filename a |}.

Definition withBackground (b : Background) (a : CreateArgs) : CreateArgs :=
  {| c_prompt := c_prompt a; c_background := Some b;
     c_moderation := c_moderation a; c_n := c_n a;
     c_output_compression := c_output_compression a;
     c_output_format := c_output_format a; c_quality := c_quality a;
     c_size := c_size a; c_user := c_user a; c_output := c_output a;
     c_file_output := c_file_output a; c_filename := c_filename a |}.

(** The bytes of the word hello, and their encoding [aGVsbG8=]. *)
Definition helloBytes : list byte := [x68; x65; x6c; x6c; x6f].

(* ================================================================== *)
(** * Properties                                                       *)
(* ================================================================== *)

(* ------------------------------------------------------------------ *)
(** ** Strings                                                         *)
(* ------------------------------------------------------------------ *)

Lemma eqb_eq (a b : jsstring) : JS.eqb a b = true <-> a = b.
Proof.
  revert b; induction a as [|x a IH]; destruct b as [|y b]; simpl;
    try (split; [discriminate | discriminate]); try tauto.
  rewrite andb_true_iff, N.eqb_eq, IH.
  split; [intros [-> ->]; reflexivity | intros H; inversion H; auto].
Qed.

Lemma eqb_refl (a : jsstring) : JS.eqb a a = true.
Proof. apply eqb_eq; reflexivity. Qed.

Lemma eqb_neq (a b : jsstring) : JS.eqb a b = false <-> a <> b.
Proof.
  split.
  - intros H E. apply eqb_eq in E. congruence.
  - intros H. destruct (JS.eqb a b) eqn:E; auto.
    apply eqb_eq in E. contradiction.
Qed.

Lemma includes_In (xs : list jsstring) (s : jsstring) :
  includes xs s = true <-> In s xs.
Proof.
  unfold includes. rewrite existsb_exists. split.
  - intros [x [Hin E]]. apply eqb_eq in E. subst; assumption.
  - intros Hin. exists s. split; [assumption | apply eqb_refl].
Qed.

Lemma truthy_nonempty (s : jsstring) : truthy s = true <-> s <> [].
Proof. destruct s; simpl; split; congruence. Qed.

(** Turns boolean tests on code units in the hypothesis [H] into
    arithmetic. *)
Ltac arith_of_bool H :=
  unfold is_base64_text, is_label_char, is_word, is_dot_or_space,
    is_problematic, is_alnum, is_alpha, is_upper, is_lower, is_digit,
    is_space, is_control, is_separator, is_line_terminator, in_range in H;
  repeat first
    [ rewrite orb_true_iff in H
    | rewrite andb_true_iff in H
    | rewrite N.leb_le in H
    | rewrite N.eqb_eq in H ].

(** Decides a boolean test on a code unit from those in the context. *)
Ltac charclass :=
  cbv beta in *;
  match goal with
  | |- _ = false =>
      let H := fresh "H" in
      apply not_true_iff_false; intro H; arith_of_bool H;
      repeat match goal with
             | G : _ = true |- _ => arith_of_bool G
             end;
      lia
  | |- _ = true =>
      repeat match goal with
             | G : _ = true |- _ => progress arith_of_bool G
             end;
      unfold is_base64_text, is_label_char, is_word, is_dot_or_space,
        is_problematic, is_alnum, is_alpha, is_upper, is_lower, is_digit,
        is_space, is_control, is_separator, is_line_terminator, in_range;
      repeat first
        [ rewrite orb_true_iff
        | rewrite andb_true_iff
        | rewrite N.leb_le
        | rewrite N.eqb_eq ];
      lia
  end.

(* ------------------------------------------------------------------ *)
(** ** Filename sanitiser                                              *)
(* ------------------------------------------------------------------ *)

Section Sanitizer.

Variable cls : codeunit -> bool.

Lemma dropWhile_Forall (P : codeunit -> Prop) (s : jsstring) :
  Forall P s -> Forall P (dropWhile cls s).
Proof.
  induction 1 as [|c s Hc Hs IH]; simpl; [constructor|].
  destruct (cls c); [assumption | constructor; assumption].
Qed.

Lemma trimClass_Forall (P : codeunit -> Prop) (s : jsstring) :
  Forall P s -> Forall P (trimClass cls s).
Proof.
  intros H. unfold trimClass.
  apply Forall_rev, dropWhile_Forall, Forall_rev, dropWhile_Forall, H.
Qed.

Lemma dropWhile_head (s : jsstring) :
  match dropWhile cls s with
  | [] => True
  | c :: _ => cls c = false
  end.
Proof.
  induction s as [|c s IH]; simpl; [exact I|].
  destruct (cls c) eqn:E; [exact IH | exact E].
Qed.

Lemma dropWhile_snoc (s : jsstring) (c : codeunit) :
  cls c = false -> dropWhile cls (s ++ [c]) = dropWhile cls s ++ [c].
Proof.
  intros Hc. induction s as [|x s IH]; simpl.
  - rewrite Hc. reflexivity.
  - destruct (cls x); [exact IH | reflexivity].
Qed.

(** What is left after trimming does not begin with a unit of the
    class. *)
Lemma trimClass_head (s : jsstring) :
  match trimClass cls s with
  | [] => True
  | c :: _ => cls c = false
  end.
Proof.
  unfold trimClass.
  pose proof (dropWhile_head s) as Hh.
  destruct (dropWhile cls s) as [|c t]; simpl; [exact I|].
  rewrite dropWhile_snoc by exact Hh.
  rewrite rev_app_distr. simpl. exact Hh.
Qed.

Lemma dropWhile_none (s : jsstring) :
  Forall (fun c => cls c = false) s -> dropWhile cls s = s.
Proof.
  destruct 1 as [|c s Hc Hs]; simpl; [reflexivity|].
  rewrite Hc. reflexivity.
Qed.

Lemma trimClass_none (s : jsstring) :
  Forall (fun c => cls c = false) s -> trimClass cls s = s.
Proof.
  intros H. unfold trimClass.
  rewrite (dropWhile_none H).
  rewrite dropWhile_none by (apply Forall_rev; exact H).
  apply rev_involutive.
Qed.

Lemma replaceWithHyphen_none (s : jsstring) :
  Forall (fun c => cls c = false) s -> replaceWithHyphen cls s = s.
Proof.
  induction 1 as [|c s Hc Hs IH]; simpl; [reflexivity|].
  rewrite Hc. f_equal. exact IH.
Qed.

Lemma replaceWithHyphen_clears (s : jsstring) :
  cls 45 = false ->
  Forall (fun c => cls c = false) (replaceWithHyphen cls s).
Proof.
  intros H45. induction s as [|c s IH]; simpl; constructor; [|exact IH].
  destruct (cls c) eqn:E; assumption.
Qed.

Lemma replaceWithHyphen_Forall (P : codeunit -> Prop) (s : jsstring) :
  P 45 -> Forall P s -> Forall P (replaceWithHyphen cls s).
Proof.
  intros H45. induction 1 as [|c s Hc Hs IH]; simpl; constructor;
    [destruct (cls c); assumption | exact IH].
Qed.

End Sanitizer.

Lemma firstn_Forall (P : codeunit -> Prop) (n : nat) (s : jsstring) :
  Forall P s -> Forall P (firstn n s).
Proof.
  intros H. revert n. induction H as [|c s Hc Hs IH]; intros [|n]; simpl;
    constructor; auto.
Qed.

Lemma sanitizeFilename_safe (filename : jsstring) :
  Forall (fun c => unsafe c = false) (sanitizeFilename filename).
Proof.
  unfold sanitizeFilename.
  set (s1 := replaceWithHyphen is_separator filename).
  set (s2 := replaceWithHyphen is_problematic s1).
  assert (H2 : Forall (fun c => unsafe c = false) s2).
  { subst s2.
    assert (Hs : Forall (fun c => is_separator c = false) s1)
      by (apply replaceWithHyphen_clears; reflexivity).
    assert (Hp : Forall (fun c => is_problematic c = false)
                   (replaceWithHyphen is_problematic s1))
      by (apply replaceWithHyphen_clears; reflexivity).
    assert (Hs' : Forall (fun c => is_separator c = false)
                    (replaceWithHyphen is_problematic s1))
      by (apply replaceWithHyphen_Forall; [reflexivity | exact Hs]).
    rewrite Forall_forall in *. intros c Hc. unfold unsafe.
    rewrite (Hp c Hc), (Hs' c Hc). reflexivity. }
  set (s3 := trimClass is_dot_or_space s2).
  assert (H3 : Forall (fun c => unsafe c = false) s3)
    by (apply trimClass_Forall; exact H2).
  destruct (200 <? List.length s3)%nat.
  - destruct (truthy (firstn 200 s3)); cbn [negb].
    + apply firstn_Forall; exact H3.
    + repeat constructor.
  - destruct (truthy s3); cbn [negb]; [exact H3 | repeat constructor].
Qed.

Lemma sanitizeFilename_nonempty (filename : jsstring) :
  sanitizeFilename filename <> [].
Proof.
  unfold sanitizeFilename.
  match goal with
  | |- (if negb (truthy ?s) then _ else _) <> _ => destruct s eqn:E
  end; cbn [negb truthy]; discriminate.
Qed.

(** The result does not begin with a dot or a white-space character. *)
Lemma sanitizeFilename_head (filename : jsstring) :
  match sanitizeFilename filename with
  | [] => False
  | c :: _ => is_dot_or_space c = false
  end.
Proof.
  unfold sanitizeFilename.
  set (s3 := trimClass is_dot_or_space _).
  pose proof (trimClass_head is_dot_or_space
                (replaceWithHyphen is_problematic
                   (replaceWithHyphen is_separator filename))) as Hh.
  fold s3 in Hh.
  destruct (200 <? List.length s3)%nat.
  - change 200%nat with (S 199).
    destruct s3 as [|c t]; cbn [firstn truthy negb];
      [reflexivity | exact Hh].
  - destruct s3 as [|c t]; cbn [truthy negb]; [reflexivity | exact Hh].
Qed.

Lemma label_char_safe (c : codeunit) :
  is_label_char c = true ->
  is_separator c = false /\ is_problematic c = false
  /\ is_dot_or_space c = false.
Proof. intros H. repeat split; charclass. Qed.

Lemma sanitizeFilename_label (S : jsstring) :
  S <> [] -> (List.length S <= 200)%nat ->
  Forall (fun c => is_label_char c = true) S ->
  sanitizeFilename S = S.
Proof.
  intros Hne Hlen Hlab. unfold sanitizeFilename.
  assert (Hs : Forall (fun c => is_separator c = false) S)
    by (eapply Forall_impl; [|exact Hlab]; intros c Hc;
        apply (label_char_safe c Hc)).
  assert (Hp : Forall (fun c => is_problematic c = false) S)
    by (eapply Forall_impl; [|exact Hlab]; intros c Hc;
        apply (label_char_safe c Hc)).
  assert (Hd : Forall (fun c => is_dot_or_space c = false) S)
    by (eapply Forall_impl; [|exact Hlab]; intros c Hc;
        apply (label_char_safe c Hc)).
  rewrite (replaceWithHyphen_none is_separator Hs),
    (replaceWithHyphen_none is_problematic Hp),
    (trimClass_none is_dot_or_space Hd).
  destruct (Nat.ltb_spec 200 (List.length S)) as [Hgt|_]; [lia|].
  destruct S; [contradiction | reflexivity].
Qed.

(** C7, as amended.  For every input string the sanitised name is not
    empty, contains no path separator ([/] or [\]) and does not begin with
    a dot, so that it is neither [.] nor [..] and cannot act as a
    traversal component.  Dots inside the name are kept. *)
Theorem sanitizeFilename_no_traversal (filename : jsstring) :
  sanitizeFilename filename <> []
  /\ Forall (fun c => c <> 47 /\ c <> 92) (sanitizeFilename filename)
  /\ hd_error (sanitizeFilename filename) <> Some 46
  /\ sanitizeFilename filename <> js "."
  /\ sanitizeFilename filename <> js "..".
Proof.
  pose proof (sanitizeFilename_head filename) as Hh.
  pose proof (sanitizeFilename_safe filename) as Hs.
  split; [apply sanitizeFilename_nonempty|].
  split.
  { eapply Forall_impl; [|exact Hs]. intros c Hc. unfold unsafe in Hc.
    apply orb_false_iff in Hc. destruct Hc as [Hc _].
    unfold is_separator in Hc. apply orb_false_iff in Hc.
    destruct Hc as [H1 H2]. apply N.eqb_neq in H1, H2. split; assumption. }
  destruct (sanitizeFilename filename) as [|c t]; [contradiction|].
  assert (Hc : c <> 46).
  { intros ->. discriminate Hh. }
  repeat split; intros E; inversion E; contradiction.
Qed.

(** C7, the claim as stated fails: a pair of dots inside a name goes
    through the sanitiser. *)
Lemma sanitizeFilename_keeps_inner_dots :
  sanitizeFilename (js "a..b") = js "a..b"
  /\ jsIncludes (sanitizeFilename (js "a..b")) (js "..") = true.
Proof. split; reflexivity. Qed.

(** A name with no character of the classes the sanitiser acts on, and
    of at most 200 code units, comes back as it is. *)
Lemma sanitizeFilename_untouched (S : jsstring) :
  S <> [] -> (List.length S <= 200)%nat ->
  Forall (fun c => is_separator c = false) S ->
  Forall (fun c => is_problematic c = false) S ->
  Forall (fun c => is_dot_or_space c = false) S ->
  sanitizeFilename S = S.
Proof.
  intros Hne Hlen Hs Hp Hd. unfold sanitizeFilename.
  rewrite (replaceWithHyphen_none is_separator Hs),
    (replaceWithHyphen_none is_problematic Hp),
    (trimClass_none is_dot_or_space Hd).
  destruct (Nat.ltb_spec 200 (List.length S)) as [Hgt|_]; [lia|].
  destruct S; [contradiction | reflexivity].
Qed.

(** The control characters from U+007F to U+009F belong to none of the
    classes the sanitiser acts on. *)
Lemma upper_control_kept (c : codeunit) :
  127 <= c <= 159 ->
  is_separator c = false /\ is_problematic c = false
  /\ is_dot_or_space c = false.
Proof. intros H. repeat split; charclass. Qed.

(** C8, as amended.  For every string [S] of length at most 200 made of
    alphanumerics, hyphens and underscores, [sanitizeFilename S] is [S],
    the empty string being the case of the last clause; for every string
    the result contains neither [/] nor [\] nor a control character of
    the range the source names, U+0000 to U+001F, while the control
    characters U+007F to U+009F are kept, a name of at most 200 such
    characters, alphanumerics, hyphens and underscores coming back
    unchanged; and the empty string gives the default token [image]. *)
Theorem sanitizeFilename_label_safe_default :
  (forall S : jsstring,
      (List.length S <= 200)%nat ->
      Forall (fun c => is_label_char c = true) S ->
      sanitizeFilename S = if truthy S then S else js "image")
  /\ (forall (s : jsstring) (c : codeunit),
         In c (sanitizeFilename s) ->
         c <> 47 /\ c <> 92 /\ is_control c = false)
  /\ (forall c : codeunit, 127 <= c <= 159 -> is_control_character c = true)
  /\ (forall S : jsstring,
         S <> [] -> (List.length S <= 200)%nat ->
         Forall (fun c => is_label_char c = true \/ 127 <= c <= 159) S ->
         sanitizeFilename S = S)
  /\ sanitizeFilename [] = js "image".
Proof.
  split.
  { intros S Hlen Hlab. destruct S as [|c0 S0]; [reflexivity|].
    cbn [truthy]. apply sanitizeFilename_label;
      [discriminate | exact Hlen | exact Hlab]. }
  split.
  { intros s c Hin.
    pose proof (sanitizeFilename_safe s) as Hs.
    rewrite Forall_forall in Hs. specialize (Hs c Hin).
    unfold unsafe, is_problematic, is_separator in Hs.
    repeat (apply orb_false_iff in Hs; destruct Hs as [Hs ?]).
    repeat match goal with
           | H : (_ || _) = false |- _ =>
               apply orb_false_iff in H; destruct H
           end.
    repeat match goal with
           | H : (_ =? _) = false |- _ => apply N.eqb_neq in H
           end.
    repeat split; assumption. }
  split.
  { intros c Hc. unfold is_control_character. apply orb_true_iff. right.
    apply andb_true_iff. split; apply N.leb_le; lia. }
  split; [|reflexivity].
  intros S Hne Hlen Hcls.
  apply sanitizeFilename_untouched; try assumption;
    (eapply Forall_impl; [|exact Hcls]); intros c [Hc|Hc];
    first [apply (label_char_safe c Hc) | apply (upper_control_kept Hc)].
Qed.

Lemma sanitizeFilename_label_witness :
  sanitizeFilename (js "cat-with_hat2") = js "cat-with_hat2"
  /\ sanitizeFilename [97; 133; 98] = [97; 133; 98].
Proof.
  split.
  - apply (proj1 sanitizeFilename_label_safe_default (js "cat-with_hat2")).
    + apply Nat.leb_le. reflexivity.
    + repeat constructor.
  - apply (proj1 (proj2 (proj2 (proj2 sanitizeFilename_label_safe_default)))
             [97; 133; 98]).
    + discriminate.
    + apply Nat.leb_le. reflexivity.
    + constructor; [left; reflexivity|].
      constructor; [right; lia|].
      constructor; [left; reflexivity|]. constructor.
Defined.

(** C8, the claim as stated fails: the name made of the letter a,
    U+007F DELETE and the letter b holds a control character, and the
    sanitiser returns it unchanged, control character included; its
    second replacement names the range from U+0000 to U+001F alone. *)
Lemma sanitizeFilename_keeps_delete :
  existsb is_control_character [97; 127; 98] = true
  /\ sanitizeFilename [97; 127; 98] = [97; 127; 98]
  /\ existsb is_control_character (sanitizeFilename [97; 127; 98]) = true.
Proof. repeat split. Qed.

(* ------------------------------------------------------------------ *)
(** ** Size normaliser                                                 *)
(* ------------------------------------------------------------------ *)

Lemma ownProperty_truthy (k v : jsstring) :
  ownProperty aspectRatioMap k = Some v -> truthy v = true.
Proof.
  unfold aspectRatioMap. cbn [ownProperty].
  repeat match goal with
         | |- (if ?b then _ else _) = _ -> _ => destruct b
         end;
    intros E; inversion E; reflexivity.
Qed.

(** A valid size does not normalise to an aspect-ratio token, so the two
    rules of [parseSize] never compete. *)
Lemma valid_size_no_token (input : jsstring) :
  includes validSizes input = true ->
  ownProperty aspectRatioMap (normalized input) = None.
Proof.
  intros H. apply includes_In in H. unfold validSizes in H. simpl in H.
  repeat destruct H as [H|H]; try contradiction; subst; reflexivity.
Qed.

(** Identity on the valid sizes. *)
Lemma parseSize_valid (input : jsstring) :
  includes validSizes input = true -> parseSize input = JString input.
Proof. intros H. unfold parseSize. rewrite H. reflexivity. Qed.

(** An input that normalises to a token gives the size of the token. *)
Lemma parseSize_token (input size : jsstring) :
  ownProperty aspectRatioMap (normalized input) = Some size ->
  parseSize input = JString size.
Proof.
  intros H. unfold parseSize.
  destruct (includes validSizes input) eqn:Hv.
  - rewrite (valid_size_no_token _ Hv) in H. discriminate.
  - unfold getProperty. rewrite H. cbn [truthyValue].
    rewrite (ownProperty_truthy _ H). reflexivity.
Qed.

(** The table of the tokens. *)
Lemma aspectRatioMap_table :
  List.map (fun t => ownProperty aspectRatioMap (js t))
    [ "1:1"; "square"; "4:3"; "3:4"; "16:9"; "landscape"; "3:2";
      "9:16"; "portrait"; "2:3" ]%string
  = List.map (fun s => Some (js s))
      [ "1024x1024"; "1024x1024"; "1024x1024"; "1024x1024";
        "1536x1024"; "1536x1024"; "1536x1024";
        "1024x1536"; "1024x1536"; "1024x1536" ]%string.
Proof. reflexivity. Qed.

(** An input that is neither a valid size, nor normalises to a token, nor
    normalises to a property name of [Object.prototype] is returned
    unchanged. *)
Lemma parseSize_passthrough (input : jsstring) :
  ownProperty aspectRatioMap (normalized input) = None ->
  includes objectPrototypeNames (normalized input) = false ->
  parseSize input = JString input.
Proof.
  intros Hown Hproto. unfold parseSize.
  destruct (includes validSizes input); [reflexivity|].
  unfold getProperty. rewrite Hown, Hproto. reflexivity.
Qed.

(** An input that normalises to a property name of [Object.prototype] is
    not returned: the member inherited under that name is. *)
Lemma parseSize_inherited (input : jsstring) :
  includes validSizes input = false ->
  includes objectPrototypeNames (normalized input) = true ->
  parseSize input = JInherited (normalized input).
Proof.
  intros Hv Hproto. unfold parseSize. rewrite Hv.
  unfold getProperty.
  destruct (ownProperty aspectRatioMap (normalized input)) as [v|] eqn:Hown.
  - exfalso. apply includes_In in Hproto.
    unfold objectPrototypeNames in Hproto. simpl in Hproto.
    repeat destruct Hproto as [Hproto|Hproto]; try contradiction;
      rewrite <- Hproto in Hown; discriminate.
  - rewrite Hproto. reflexivity.
Qed.

(** C4, the claim as stated fails: [constructor] is not a valid size and
    does not normalise to a token, yet [parseSize] does not return it
    unchanged; the lookup in [aspectRatioMap] finds the member every
    object inherits under that name, and that member is returned.  The
    same holds of [__proto__]. *)
Lemma parseSize_constructor :
  (includes validSizes (js "constructor") = false
   /\ ownProperty aspectRatioMap (normalized (js "constructor")) = None
   /\ parseSize (js "constructor") = JInherited (js "constructor")
   /\ parseSize (js "constructor") <> JString (js "constructor"))
  /\ (includes validSizes (js "__proto__") = false
      /\ ownProperty aspectRatioMap (normalized (js "__proto__")) = None
      /\ parseSize (js "__proto__") = JInherited (js "__proto__")
      /\ parseSize (js "__proto__") <> JString (js "__proto__")).
Proof. repeat split; try reflexivity; discriminate. Qed.

Lemma lowerUnit_no_upper (c : codeunit) :
  Forall (fun x => is_upper x = false) (lowerUnit c).
Proof.
  unfold lowerUnit.
  destruct (is_upper c) eqn:Hu.
  - repeat constructor. charclass.
  - destruct (c =? 8490); [repeat constructor|].
    destruct (c =? 304); repeat constructor. exact Hu.
Qed.

Lemma normalized_no_upper (input : jsstring) :
  Forall (fun x => is_upper x = false) (normalized input).
Proof.
  unfold normalized, stripWhitespace, toLowerCase.
  apply Forall_forall. intros x Hx.
  apply filter_In in Hx. destruct Hx as [Hx _].
  apply in_flat_map in Hx. destruct Hx as [c [_ Hx]].
  pose proof (lowerUnit_no_upper c) as H.
  rewrite Forall_forall in H. exact (H x Hx).
Qed.

(** Of the property names of [Object.prototype] only the two written in
    lower case can be the normal form of an input. *)
Lemma inherited_names_reachable (input : jsstring) :
  includes objectPrototypeNames (normalized input) = true ->
  normalized input = js "constructor" \/ normalized input = js "__proto__".
Proof.
  intros H.
  assert (Hup : forallb (fun x => negb (is_upper x)) (normalized input) = true).
  { apply forallb_forall. intros x Hx.
    pose proof (normalized_no_upper input) as Hf.
    rewrite Forall_forall in Hf. rewrite (Hf x Hx). reflexivity. }
  apply includes_In in H. unfold objectPrototypeNames in H. simpl in H.
  repeat destruct H as [H|H]; try contradiction;
    try (left; symmetry; exact H); try (right; symmetry; exact H);
    exfalso; rewrite <- H in Hup; vm_compute in Hup; discriminate.
Qed.

(** What [parseSize] returns, case by case. *)
Theorem parseSize_cases (input : jsstring) :
  parseSize input =
    if includes validSizes input then JString input
    else match ownProperty aspectRatioMap (normalized input) with
         | Some size => JString size
         | None =>
             if JS.eqb (normalized input) (js "constructor")
                || JS.eqb (normalized input) (js "__proto__")
             then JInherited (normalized input)
             else JString input
         end.
Proof.
  destruct (includes validSizes input) eqn:Hv.
  - apply parseSize_valid, Hv.
  - destruct (ownProperty aspectRatioMap (normalized input)) as [v|] eqn:Hown.
    + apply parseSize_token, Hown.
    + destruct (includes objectPrototypeNames (normalized input)) eqn:Hp.
      * rewrite (parseSize_inherited _ Hv Hp).
        destruct (inherited_names_reachable _ Hp) as [E|E]; rewrite E;
          reflexivity.
      * rewrite (parseSize_passthrough _ Hown Hp).
        destruct (JS.eqb (normalized input) (js "constructor")) eqn:E1.
        { apply eqb_eq in E1. rewrite E1 in Hp. discriminate. }
        destruct (JS.eqb (normalized input) (js "__proto__")) eqn:E2.
        { apply eqb_eq in E2. rewrite E2 in Hp. discriminate. }
        reflexivity.
Qed.

(* ------------------------------------------------------------------ *)
(** ** Base64                                                          *)
(* ------------------------------------------------------------------ *)

Module Base64Facts.

Import Base64.

Ltac Zify.zify_post_hook ::= Z.to_euclidean_division_equations.

(** Induction over a buffer three bytes at a time, as [encode] reads
    it. *)
Lemma bytes_ind3 (P : list byte -> Prop) :
  P [] -> (forall a, P [a]) -> (forall a b, P [a; b]) ->
  (forall a b c rest, P rest -> P (a :: b :: c :: rest)) ->
  forall B, P B.
Proof.
  intros H0 H1 H2 H3. fix IH 1.
  intros [|a [|b [|c rest]]];
    [apply H0 | apply H1 | apply H2 | apply H3, IH].
Qed.

(** A test that holds of the 64 sextets holds below 64. *)
Lemma below64 (P : N -> bool) :
  forallb P (List.map N.of_nat (seq 0 64)) = true ->
  forall n, n < 64 -> P n = true.
Proof.
  intros H n Hn. rewrite forallb_forall in H. apply H.
  apply in_map_iff. exists (N.to_nat n). split; [lia|].
  apply in_seq. lia.
Qed.

Lemma unbase64_sextetChar (n : N) :
  n < 64 -> unbase64 (sextetChar n) = Some n.
Proof.
  intros Hn.
  pose proof
    (below64
       (fun n => match unbase64 (sextetChar n) with
                 | Some m => m =? n
                 | None => false
                 end)) as H.
  specialize (H eq_refl n Hn). cbv beta in H.
  destruct (unbase64 (sextetChar n)); [|discriminate].
  apply N.eqb_eq in H. congruence.
Qed.

Lemma sextetChar_text (n : N) :
  n < 64 ->
  is_base64_text (sextetChar n) = true /\ (sextetChar n =? 61) = false.
Proof.
  intros Hn.
  pose proof
    (below64
       (fun n => is_base64_text (sextetChar n)
                 && negb (sextetChar n =? 61))) as H.
  specialize (H eq_refl n Hn). cbv beta in H.
  apply andb_true_iff in H. destruct H as [H1 H2].
  apply negb_true_iff in H2. split; assumption.
Qed.

Lemma byteOfN_to_N (b : byte) (n : N) : n = Byte.to_N b -> byteOfN n = b.
Proof.
  intros ->. unfold byteOfN.
  rewrite N.mod_small by (pose proof (Byte.to_N_bounded b); lia).
  rewrite Byte.of_to_N. reflexivity.
Qed.

Lemma sextets_char (n : N) (s : jsstring) :
  n < 64 -> sextets (sextetChar n :: s) = n :: sextets s.
Proof.
  intros Hn. cbn [sextets]. rewrite (unbase64_sextetChar Hn). reflexivity.
Qed.

Lemma sextets_pad (s : jsstring) : sextets (61 :: s) = [].
Proof. reflexivity. Qed.

(** Decoding the encoding of a buffer gives the buffer back. *)
Theorem decode_encode (B : list byte) : decode (encode B) = B.
Proof.
  unfold decode. induction B as [|a|a b|a b c rest IH] using bytes_ind3.
  - reflexivity.
  - pose proof (Byte.to_N_bounded a) as Ha. cbn [encode].
    rewrite !sextets_char by lia. rewrite sextets_pad. cbn [groups].
    f_equal. apply byteOfN_to_N. lia.
  - pose proof (Byte.to_N_bounded a) as Ha.
    pose proof (Byte.to_N_bounded b) as Hb. cbn [encode].
    rewrite !sextets_char by lia. rewrite sextets_pad. cbn [groups].
    f_equal; [|f_equal]; apply byteOfN_to_N; lia.
  - pose proof (Byte.to_N_bounded a) as Ha.
    pose proof (Byte.to_N_bounded b) as Hb.
    pose proof (Byte.to_N_bounded c) as Hc. cbn [encode].
    rewrite !sextets_char by lia. cbn [groups]. rewrite IH.
    f_equal; [|f_equal; [|f_equal]]; apply byteOfN_to_N; lia.
Qed.

(** The text of an encoding is made of the characters [base64Check]
    accepts and holds no line terminator. *)
Lemma encode_text (B : list byte) :
  Forall (fun c => is_base64_text c = true
                   /\ is_line_terminator c = false) (encode B).
Proof.
  assert (Hchar : forall n, n < 64 ->
            is_base64_text (sextetChar n) = true
            /\ is_line_terminator (sextetChar n) = false).
  { intros n Hn.
    pose proof
      (below64
         (fun n => is_base64_text (sextetChar n)
                   && negb (is_line_terminator (sextetChar n)))) as H.
    specialize (H eq_refl n Hn). cbv beta in H.
    apply andb_true_iff in H. destruct H as [H1 H2].
    apply negb_true_iff in H2. split; assumption. }
  induction B as [|a|a b|a b c rest IH] using bytes_ind3.
  - constructor.
  - pose proof (Byte.to_N_bounded a) as Ha. cbn [encode].
    repeat constructor; apply Hchar; lia.
  - pose proof (Byte.to_N_bounded a) as Ha.
    pose proof (Byte.to_N_bounded b) as Hb. cbn [encode].
    repeat constructor; apply Hchar; lia.
  - pose proof (Byte.to_N_bounded a) as Ha.
    pose proof (Byte.to_N_bounded b) as Hb.
    pose proof (Byte.to_N_bounded c) as Hc. cbn [encode].
    repeat (constructor; [apply Hchar; lia|]). exact IH.
Qed.

(** An encoding begins with the character of the six high bits of the
    first byte. *)
Lemma encode_head (a : byte) (B : list byte) :
  exists t, encode (a :: B) = sextetChar (Byte.to_N a / 4) :: t.
Proof.
  destruct B as [|b [|c rest]]; cbn [encode]; eexists; reflexivity.
Qed.

Lemma unpaddedLength_cons (c : codeunit) (t : jsstring) :
  (3 <= List.length t)%nat ->
  unpaddedLength (c :: t) = S (unpaddedLength t).
Proof.
  destruct t as [|x [|y [|z t']]]; cbn [List.length]; try lia.
  intros _. unfold unpaddedLength. cbn [List.length endsWithPad nth_error].
  destruct (nth_error (z :: t') (List.length t')) as [u|] eqn:E1;
    [destruct (u =? 61) eqn:Eu|];
    cbn [pred Nat.ltb Nat.leb andb endsWithPad nth_error];
    rewrite ?E1, ?Eu; try reflexivity.
  destruct (nth_error (y :: z :: t') (List.length t')) as [v|];
    [destruct (v =? 61)|]; reflexivity.
Qed.

Lemma encode_length (B : list byte) :
  B <> [] -> (4 <= List.length (encode B))%nat.
Proof.
  destruct B as [|a [|b [|c rest]]]; [contradiction| | |]; intros _;
    cbn [encode List.length]; lia.
Qed.

Lemma encode_unpadded (B : list byte) :
  N.of_nat (unpaddedLength (encode B))
  = (4 * N.of_nat (List.length B) + 2) / 3.
Proof.
  induction B as [|a|a b|a b c rest IH] using bytes_ind3.
  - reflexivity.
  - reflexivity.
  - pose proof (Byte.to_N_bounded b) as Hb.
    assert (H : (sextetChar (Byte.to_N b mod 16 * 4) =? 61) = false)
      by (apply sextetChar_text; lia).
    cbn [encode]. unfold unpaddedLength.
    cbn [List.length endsWithPad nth_error N.eqb Pos.eqb pred Nat.ltb
         Nat.leb andb].
    rewrite H. reflexivity.
  - pose proof (Byte.to_N_bounded c) as Hc.
    assert (H : (sextetChar (Byte.to_N c mod 64) =? 61) = false)
      by (apply sextetChar_text; lia).
    cbn [encode]. destruct rest as [|r rest'].
    + cbn [encode]. unfold unpaddedLength.
      cbn [List.length endsWithPad nth_error pred Nat.ltb Nat.leb andb].
      rewrite H.
      cbn [List.length endsWithPad nth_error pred Nat.ltb Nat.leb andb].
      rewrite H. reflexivity.
    + assert (Hlen : (4 <= List.length (encode (r :: rest')))%nat)
        by (apply encode_length; discriminate).
      rewrite !unpaddedLength_cons by (cbn [List.length]; lia).
      cbn [List.length] in *. lia.
Qed.

(** [Buffer.byteLength] of the encoding of a buffer is the length of the
    buffer. *)
Theorem byteLength_encode (B : list byte) :
  byteLength (encode B) = N.of_nat (List.length B).
Proof.
  unfold byteLength. rewrite encode_unpadded.
  set (n := N.of_nat (List.length B)).
  assert (H : (4 * n + 2) / 3 * 3 = 4 * n + (n mod 3)
              \/ (4 * n + 2) / 3 * 3 = 4 * n + 2 /\ n mod 3 = 1
              \/ (4 * n + 2) / 3 * 3 = 4 * n + 1 /\ n mod 3 = 2) by lia.
  lia.
Qed.

End Base64Facts.

(* ------------------------------------------------------------------ *)
(** ** Traces                                                          *)
(* ------------------------------------------------------------------ *)

Lemma writtenPaths_app (tr tr' : list Event) :
  writtenPaths (tr ++ tr') = writtenPaths tr ++ writtenPaths tr'.
Proof.
  induction tr as [|e tr IH]; [reflexivity|].
  destruct e; simpl; rewrite IH; reflexivity.
Qed.

Lemma preparation_no_write (tr : list Event) :
  forallb isPreparation tr = true -> writtenPaths tr = [].
Proof.
  induction tr as [|e tr IH]; [reflexivity|].
  simpl. intros H. apply andb_true_iff in H. destruct H as [He Ht].
  destruct e; try discriminate; simpl; auto.
Qed.

Lemma preparation_no_upstream (tr : list Event) :
  forallb isPreparation tr = true -> callsUpstream tr = false.
Proof.
  induction tr as [|e tr IH]; [reflexivity|].
  simpl. intros H. apply andb_true_iff in H. destruct H as [He Ht].
  destruct e; try discriminate; simpl; auto.
Qed.

Lemma upstreamAnswer_preparation (w : World) (tr rest : list Event) :
  forallb isPreparation tr = true ->
  upstreamAnswer w (tr ++ rest) = upstreamAnswer w rest.
Proof.
  induction tr as [|e tr IH]; [reflexivity|].
  simpl. intros H. apply andb_true_iff in H. destruct H as [He Ht].
  destruct e; try discriminate; simpl; auto.
Qed.

(* ------------------------------------------------------------------ *)
(** ** Paths                                                           *)
(* ------------------------------------------------------------------ *)

Lemma normalize_nonempty (path : jsstring) : Path.normalize path <> [].
Proof.
  unfold Path.normalize. destruct path as [|c0 rest]; [discriminate|].
  destruct (Path.joinWith _ _) as [|r res].
  - destruct (c0 =? 47); [discriminate|].
    destruct (match rev (c0 :: rest) with
              | [] => false
              | cl :: _ => cl =? 47
              end); discriminate.
  - destruct (c0 =? 47); [discriminate|].
    destruct (match rev (c0 :: rest) with
              | [] => false
              | cl :: _ => cl =? 47
              end); discriminate.
Qed.

Lemma join_nonempty (args : list jsstring) : Path.join args <> [].
Proof.
  unfold Path.join. destruct (filter truthy args); [discriminate|].
  apply normalize_nonempty.
Qed.

Lemma join_truthy (args : list jsstring) : truthy (Path.join args) = true.
Proof. apply truthy_nonempty, join_nonempty. Qed.

(* ------------------------------------------------------------------ *)
(** ** Output routing                                                  *)
(* ------------------------------------------------------------------ *)

(** The default path is computed after one [mkdir] and is not empty. *)
Lemma defaultFileOutput_run (prefix : string) (filename : option jsstring)
    (extension : jsstring) (w : World) (tr : list Event) :
  exists d p,
    defaultFileOutput prefix filename extension w tr = (tr ++ [Mkdir d], inr p)
    /\ truthy p = true.
Proof.
  unfold defaultFileOutput, getDefaultOutputDir, mkdir, bind, ask, emit, ret.
  destruct (mkdirSucceeds w _); eexists; eexists;
    (split; [reflexivity | apply join_truthy]).
Qed.

Lemma bind_inr {A B} (m : M A) (k : A -> M B) (w : World)
    (tr tr' : list Event) (a : A) :
  m w tr = (tr', inr a) -> bind m k w tr = k a w tr'.
Proof. intros H. unfold bind. rewrite H. reflexivity. Qed.

Lemma bind_inl {A B} (m : M A) (k : A -> M B) (w : World)
    (tr tr' : list Event) (e : Error) :
  m w tr = (tr', inl e) -> bind m k w tr = (tr', inl e).
Proof. intros H. unfold bind. rewrite H. reflexivity. Qed.

Lemma writeFile_ok (p : jsstring) (data : list byte) (w : World)
    (tr : list Event) :
  writeSucceeds w p = true ->
  writeFile p data w tr = (tr ++ [WriteFile p data], inr tt).
Proof.
  intros H. unfold writeFile, bind, ask, emit. rewrite H. reflexivity.
Qed.

Lemma writeFile_fails (p : jsstring) (data : list byte) (w : World)
    (tr : list Event) :
  writeSucceeds w p = false ->
  writeFile p data w tr = (tr ++ [WriteFile p data], inl (FsError p)).
Proof.
  intros H. unfold writeFile, bind, ask, emit. rewrite H. reflexivity.
Qed.

(** The write loop: the files it names are written in order up to the
    first failure; on success the response names every one of them. *)
Lemma writeImages_run (filePathOf : nat -> Image -> jsstring)
    (images : list Image) :
  forall (i : nat) (w : World) (tr : list Event),
  exists (k : nat) (evs : list Event),
    fst (writeImages filePathOf i images w tr) = tr ++ evs
    /\ forallb isWrite evs = true
    /\ writtenPaths evs = firstn k (filePaths filePathOf i images)
    /\ (images <> [] -> (1 <= k)%nat)
    /\ match snd (writeImages filePathOf i images w tr) with
       | inr content =>
           k = List.length images
           /\ content = List.map savedText (filePaths filePathOf i images)
       | inl e => exists p, e = FsError p
       end.
Proof.
  induction images as [|img rest IH]; intros i w tr.
  - exists 0%nat, []. cbn. rewrite app_nil_r.
    repeat split; try reflexivity. intros H; contradiction.
  - cbn [writeImages filePaths].
    set (p := filePathOf i img). set (d := Base64.decode (b64 img)).
    destruct (writeSucceeds w p) eqn:Hw.
    + erewrite bind_inr by (apply writeFile_ok; exact Hw).
      destruct (IH (S i) w (tr ++ [WriteFile p d]))
        as [k [evs [Htr [Hev [Hwp [Hk Hres]]]]]].
      exists (S k), (WriteFile p d :: evs).
      destruct (writeImages filePathOf (S i) rest w (tr ++ [WriteFile p d]))
        as [tr' r] eqn:E.
      cbn [fst snd] in Htr, Hres. subst tr'.
      destruct r as [e|content].
      * erewrite bind_inl by exact E. cbn [fst snd]. repeat split.
        -- rewrite <- app_assoc. reflexivity.
        -- exact Hev.
        -- cbn [writtenPaths firstn]. rewrite Hwp. reflexivity.
        -- intros _. lia.
        -- exact Hres.
      * erewrite bind_inr by exact E. unfold ret. cbn [fst snd].
        destruct Hres as [Hlen Hc]. repeat split.
        -- rewrite <- app_assoc. reflexivity.
        -- exact Hev.
        -- cbn [writtenPaths firstn]. rewrite Hwp. reflexivity.
        -- intros _. lia.
        -- cbn [List.length]. congruence.
        -- cbn [List.map]. rewrite Hc. reflexivity.
    + erewrite bind_inl by (apply writeFile_fails; exact Hw).
      exists 1%nat, [WriteFile p d].
      cbn [fst snd]. repeat split.
      * intros _. lia.
      * eexists; reflexivity.
Qed.

Lemma ret_run {A} (a : A) (w : World) (tr : list Event) :
  ret a w tr = (tr, inr a).
Proof. reflexivity. Qed.

Section Deliver.

Variables (prefix : string) (defaultExt : jsstring).
Variable filePathOf : jsstring -> nat -> nat -> Image -> jsstring.
Variables (output : OutputMode) (file_output filename : option jsstring).
Variable images : list Image.
Variables (w : World) (tr : list Event).

(** Inline delivery: nothing is written, the payloads are the
    response. *)
Lemma deliver_inline :
  effectiveOutput output images = Base64Output ->
  deliver prefix defaultExt filePathOf output file_output filename images
    w tr
  = (tr, inr (inlineContent images)).
Proof.
  intros H. unfold deliver. rewrite H.
  unfold effectiveOutput in H. destruct output; [|discriminate].
  destruct (MAX_RESPONSE_SIZE <? totalBase64Size images); [discriminate|].
  cbn [andb]. erewrite bind_inr by apply ret_run. reflexivity.
Qed.

(** File delivery: the write loop runs on a base path, which is
    [file_output] when that is given and not empty, and otherwise a path
    in the default directory, computed after a [mkdir]. *)
Lemma deliver_file :
  effectiveOutput output images = FileOutput ->
  exists (basePath : jsstring) (pre : list Event),
    forallb isPreparation pre = true
    /\ (truthyOpt file_output = true ->
        file_output = Some basePath /\ pre = [])
    /\ deliver prefix defaultExt filePathOf output file_output filename
         images w tr
       = writeImages (filePathOf basePath (List.length images)) 0 images
           w (tr ++ pre).
Proof.
  intros H. unfold deliver. rewrite H.
  destruct (truthyOpt file_output) eqn:Hfo.
  - destruct file_output as [q|] eqn:Eq; [|discriminate].
    exists q, []. rewrite app_nil_r. rewrite andb_false_r.
    split; [reflexivity|]. split; [auto|].
    erewrite bind_inr by apply ret_run. cbn [truthyOpt] in *.
    rewrite Hfo. cbn [negb].
    erewrite bind_inr by apply ret_run. reflexivity.
  - destruct (defaultFileOutput_run prefix filename defaultExt w tr)
      as [d [p [Hrun Hp]]].
    exists p, [Mkdir d]. split; [reflexivity|]. split; [discriminate|].
    cbn [negb]. rewrite andb_true_r.
    destruct (match output with
              | Base64Output => MAX_RESPONSE_SIZE <? totalBase64Size images
              | FileOutput => false
              end) eqn:Hov.
    + erewrite bind_inr; cycle 1.
      { erewrite bind_inr by exact Hrun. apply ret_run. }
      cbn [truthyOpt]. rewrite Hp. cbn [negb].
      erewrite bind_inr by apply ret_run. reflexivity.
    + erewrite bind_inr by apply ret_run. rewrite Hfo. cbn [negb].
      erewrite bind_inr by exact Hrun. reflexivity.
Qed.

End Deliver.

(* ------------------------------------------------------------------ *)
(** ** The course of an invocation                                     *)
(* ------------------------------------------------------------------ *)

Lemma issueIf_nil (failed : bool) (field : string) (v : Violation) :
  issueIf failed field v = [] -> failed = false.
Proof. destruct failed; [discriminate | reflexivity]. Qed.

(** A size the shape lets through is not rejected by the handler. *)
Lemma shape_size_accepted (sizeRaw : option jsstring) :
  optStr (includes validSizes) sizeRaw = true ->
  sizeRejected (parsedSize sizeRaw) = false.
Proof.
  destruct sizeRaw as [s|]; [|reflexivity].
  cbn [optStr parsedSize]. intros Hv.
  destruct (truthy s) eqn:Ht.
  - rewrite (parseSize_valid _ Hv). unfold sizeRejected.
    rewrite Hv. apply andb_false_r.
  - unfold sizeRejected. cbn [truthyValue]. rewrite Ht. reflexivity.
Qed.

Lemma createShape_size (a : CreateArgs) :
  createShapeIssues a = [] ->
  optStr (includes validSizes) (c_size a) = true.
Proof.
  unfold createShapeIssues. intros H.
  repeat (apply app_eq_nil in H; destruct H as [? H]).
  match goal with
  | G : issueIf (negb (optStr (includes validSizes) _)) _ _ = [] |- _ =>
      apply issueIf_nil, negb_false_iff in G; exact G
  end.
Qed.

Lemma createShape_file_output (a : CreateArgs) :
  createShapeIssues a = [] ->
  optStr createFileOutputRefine (c_file_output a) = true.
Proof.
  unfold createShapeIssues. intros H.
  repeat (apply app_eq_nil in H; destruct H as [? H]).
  apply issueIf_nil, negb_false_iff in H. exact H.
Qed.

Lemma editShape_size (a : EditArgs) :
  editShapeIssues a = [] ->
  optStr (includes validSizes) (e_size a) = true.
Proof.
  unfold editShapeIssues. intros H.
  repeat (apply app_eq_nil in H; destruct H as [? H]).
  match goal with
  | G : issueIf (negb (optStr (includes validSizes) _)) _ _ = [] |- _ =>
      apply issueIf_nil, negb_false_iff in G; exact G
  end.
Qed.

Lemma editShape_file_output (a : EditArgs) :
  editShapeIssues a = [] ->
  optStr (fun p => absolutePathCheck (Some p)) (e_file_output a) = true.
Proof.
  unfold editShapeIssues. intros H.
  repeat (apply app_eq_nil in H; destruct H as [? H]).
  apply issueIf_nil, negb_false_iff in H. exact H.
Qed.

(** The handlers pass [parseSize] nothing but the valid sizes: a call
    whose [size] is any other string has an issue on [size] and its
    handler is not run. *)
Lemma shape_size_valid (c : ToolCall) (s : jsstring) :
  shapeIssues c = [] -> sizeArg c = Some s ->
  includes validSizes s = true.
Proof.
  intros Hs Hz.
  assert (H : optStr (includes validSizes) (sizeArg c) = true)
    by (destruct c as [a|a]; [apply createShape_size | apply editShape_size];
        exact Hs).
  rewrite Hz in H. exact H.
Qed.

(** C4, as amended.  [parseSize] is the identity on the four valid sizes;
    an input whose lower-cased form without white space is a token of the
    table gives the size of that token; and every other input whose form
    is neither [constructor] nor [__proto__], the two names an object
    inherits that a lower-cased string can be, is returned unchanged.
    The registered shapes let only the four valid sizes through, so these
    are all the handlers ever pass to [parseSize]. *)
Theorem parseSize_normalizes :
  (forall input : jsstring,
      includes validSizes input = true -> parseSize input = JString input)
  /\ (forall input size : jsstring,
         ownProperty aspectRatioMap (normalized input) = Some size ->
         parseSize input = JString size)
  /\ List.map (fun t => ownProperty aspectRatioMap (js t))
       [ "1:1"; "square"; "4:3"; "3:4"; "16:9"; "landscape"; "3:2";
         "9:16"; "portrait"; "2:3" ]%string
     = List.map (fun s => Some (js s))
         [ "1024x1024"; "1024x1024"; "1024x1024"; "1024x1024";
           "1536x1024"; "1536x1024"; "1536x1024";
           "1024x1536"; "1024x1536"; "1024x1536" ]%string
  /\ (forall input : jsstring,
         includes validSizes input = false ->
         ownProperty aspectRatioMap (normalized input) = None ->
         normalized input <> js "constructor" ->
         normalized input <> js "__proto__" ->
         parseSize input = JString input)
  /\ (forall (c : ToolCall) (s : jsstring),
         shapeIssues c = [] -> sizeArg c = Some s ->
         includes validSizes s = true
         /\ parsedSize (sizeArg c) = Some (JString s)).
Proof.
  split; [exact parseSize_valid|].
  split; [exact parseSize_token|].
  split; [exact aspectRatioMap_table|].
  split.
  - intros input Hv Hown Hc Hp. rewrite parseSize_cases, Hv, Hown.
    apply eqb_neq in Hc, Hp. rewrite Hc, Hp. reflexivity.
  - intros c s Hs Hz. pose proof (shape_size_valid c Hs Hz) as Hv.
    split; [exact Hv|]. rewrite Hz. cbn [parsedSize].
    rewrite (parseSize_valid _ Hv). destruct (truthy s); reflexivity.
Qed.

Lemma parseSize_normalizes_witness :
  parseSize (js "auto") = JString (js "auto")
  /\ parseSize (js " Landscape ") = JString (js "1536x1024")
  /\ parseSize (js "banana") = JString (js "banana")
  /\ parsedSize
       (sizeArg
          (CreateImage
             {| c_prompt := js "a red cat"; c_background := None;
                c_moderation := None; c_n := None;
                c_output_compression := None; c_output_format := None;
                c_quality := None; c_size := Some (js "1536x1024");
                c_user := None; c_output := None; c_file_output := None;
                c_filename := None |}))
     = Some (JString (js "1536x1024")).
Proof.
  destruct parseSize_normalizes as [Hvalid [Htoken [_ [Hother Hgate]]]].
  split; [apply Hvalid; reflexivity|].
  split; [apply Htoken; reflexivity|].
  split; [apply Hother; [reflexivity | reflexivity | discriminate
                        | discriminate]|].
  apply (Hgate
           (CreateImage
              {| c_prompt := js "a red cat"; c_background := None;
                 c_moderation := None; c_n := None;
                 c_output_compression := None; c_output_format := None;
                 c_quality := None; c_size := Some (js "1536x1024");
                 c_user := None; c_output := None; c_file_output := None;
                 c_filename := None |}) (js "1536x1024"));
    reflexivity.
Defined.

(** A [create-image] call the shape rejects. *)
Lemma createImage_shape_rejected (a : CreateArgs) (w : World) :
  createShapeIssues a <> [] ->
  run (createImage a) w = ([], inl (InvalidArguments (createShapeIssues a))).
Proof.
  intros H. unfold run, createImage.
  destruct (createShapeIssues a); [contradiction | reflexivity].
Qed.

(** A [create-image] call the shape lets through. *)
Lemma createImage_validated (a : CreateArgs) (w : World) :
  createShapeIssues a = [] ->
  run (createImage a) w =
    if transparentMismatch (c_background a) (c_output_format a) then
      ([], inl TransparentFormat)
    else
      run (createImageBody (createWithDefaults a) (parsedSize (c_size a))) w.
Proof.
  intros H. unfold run, createImage. rewrite H.
  unfold createImageHandler. cbn [createWithDefaults c_size c_background
                                   c_output_format].
  rewrite (shape_size_accepted _ (createShape_size _ H)).
  destruct (transparentMismatch _ _); reflexivity.
Qed.

Lemma createImageBody_run (args : CreateArgs) (size : option jsvalue)
    (w : World) (tr : list Event) :
  createImageBody args size w tr =
    let params := createImageParams args size in
    match imagesGenerate w params with
    | None => (tr ++ [Generate params], inl UpstreamError)
    | Some data =>
        let images :=
          imagesOf (formatMime (c_output_format args))
            (formatExt (c_output_format args)) data in
        deliver "openai_image_" (firstExt images) createFilePath
          (outputOrDefault (c_output args)) (c_file_output args)
          (c_filename args) images w (tr ++ [Generate params])
    end.
Proof.
  unfold createImageBody, generate, bind, ask, emit. cbv zeta.
  destruct (imagesGenerate w _); reflexivity.
Qed.

(** Resolving an input reads at most one file and fails only when that
    read fails. *)
Lemma inputToFile_run (input : jsstring) (idx : N) (w : World)
    (tr : list Event) :
  exists pre,
    forallb isPreparation pre = true
    /\ ((exists p, inputToFile input idx w tr = (tr ++ pre, inl (FsError p)))
        \/ (exists f, inputToFile input idx w tr = (tr ++ pre, inr f))).
Proof.
  unfold inputToFile. destruct (absolutePathCheck (Some input)).
  - exists [ReadFile input]. split; [reflexivity|].
    unfold readStream, bind, ask, emit.
    destruct (fileContents w input); [right | left]; eexists; reflexivity.
  - exists []. split; [reflexivity|]. right. rewrite app_nil_r.
    destruct (if startsWith input (js "data:image/") then _ else _).
    eexists; reflexivity.
Qed.

Lemma editImageBody_run (args : EditArgs) (size : option jsvalue)
    (w : World) (tr : list Event) :
  exists pre,
    forallb isPreparation pre = true
    /\ ((exists p, editImageBody args size w tr = (tr ++ pre, inl (FsError p)))
        \/ (exists params,
               editImageBody args size w tr =
                 match imagesEdit w params with
                 | None => (tr ++ pre ++ [Edit params], inl UpstreamError)
                 | Some data =>
                     deliver "openai_image_edit_" (js "png") editFilePath
                       (outputOrDefault (e_output args)) (e_file_output args)
                       (e_filename args)
                       (imagesOf (js "image/png") (js "png") data)
                       w (tr ++ pre ++ [Edit params])
                 end)).
Proof.
  unfold editImageBody.
  destruct (inputToFile_run (e_image args) 0 w tr)
    as [pre1 [Hp1 [[p H1]|[f1 H1]]]].
  { exists pre1. split; [exact Hp1|]. left. exists p.
    erewrite bind_inl by exact H1. reflexivity. }
  erewrite bind_inr by exact H1.
  assert (Hmask :
    exists pre2,
      forallb isPreparation pre2 = true
      /\ ((exists p,
              (match e_mask args with
               | Some maskInput =>
                   if truthy maskInput then
                     f <- inputToFile maskInput 1 ;; ret (Some f)
                   else ret None
               | None => ret None
               end) w (tr ++ pre1) = ((tr ++ pre1) ++ pre2, inl (FsError p)))
          \/ (exists mf,
              (match e_mask args with
               | Some maskInput =>
                   if truthy maskInput then
                     f <- inputToFile maskInput 1 ;; ret (Some f)
                   else ret None
               | None => ret None
               end) w (tr ++ pre1) = ((tr ++ pre1) ++ pre2, inr mf)))).
  { destruct (e_mask args) as [m|].
    - destruct (truthy m).
      + destruct (inputToFile_run m 1 w (tr ++ pre1))
          as [pre2 [Hp2 [[p H2]|[f2 H2]]]]; exists pre2;
          (split; [exact Hp2|]).
        * left. exists p. erewrite bind_inl by exact H2. reflexivity.
        * right. exists (Some f2). erewrite bind_inr by exact H2.
          reflexivity.
      + exists []. split; [reflexivity|]. right. exists None.
        rewrite app_nil_r. reflexivity.
    - exists []. split; [reflexivity|]. right. exists None.
      rewrite app_nil_r. reflexivity. }
  destruct Hmask as [pre2 [Hp2 [[p H2]|[mf H2]]]].
  { exists (pre1 ++ pre2). split.
    - rewrite forallb_app, Hp1, Hp2. reflexivity.
    - left. exists p. erewrite bind_inl by exact H2.
      rewrite app_assoc. reflexivity. }
  exists (pre1 ++ pre2). split.
  - rewrite forallb_app, Hp1, Hp2. reflexivity.
  - right. exists (editImageParams args size f1 mf).
    erewrite bind_inr by exact H2.
    unfold edit, bind at 1, ask, emit. unfold bind at 1. cbn beta iota.
    unfold bind at 1. cbn beta iota.
    replace (tr ++ (pre1 ++ pre2) ++ [Edit (editImageParams args size f1 mf)])
      with (((tr ++ pre1) ++ pre2) ++ [Edit (editImageParams args size f1 mf)])
      by (rewrite <- !app_assoc; reflexivity).
    destruct (imagesEdit w (editImageParams args size f1 mf)); reflexivity.
Qed.

(** An [edit-image] call the shape rejects. *)
Lemma editImage_shape_rejected (a : EditArgs) (w : World) :
  editShapeIssues a <> [] ->
  run (editImage a) w = ([], inl (InvalidArguments (editShapeIssues a))).
Proof.
  intros H. unfold run, editImage.
  destruct (editShapeIssues a); [contradiction | reflexivity].
Qed.

(** An [edit-image] call the shape lets through: the refinement of the
    schema, the check of the image, the check of the mask, and then the
    body of the handler. *)
Lemma editImage_validated (a : EditArgs) (w : World) :
  editShapeIssues a = [] ->
  run (editImage a) w =
    if negb (editImageSchemaRefine a) then
      ([], inl (ZodError
                  [{| issuePath := js "file_output";
                      violation :=
                        Refinement
                          (js "file_output must be an absolute path when output is 'file_output'") |}]))
    else if offending a ImageField then ([], inl (InvalidInput ImageField))
    else if offending a MaskField then ([], inl (InvalidInput MaskField))
    else run (editImageBody (editWithDefaults a) (parsedSize (e_size a))) w.
Proof.
  intros H. unfold run, editImage. rewrite H.
  unfold editImageHandler, editImageSchemaParse.
  change (editShapeIssues (editWithDefaults a)) with (editShapeIssues a).
  change (editImageSchemaRefine (editWithDefaults a))
    with (editImageSchemaRefine a).
  change (e_size (editWithDefaults a)) with (e_size a).
  rewrite H, (editShape_size _ H). cbn [negb andb app].
  destruct (editImageSchemaRefine a); cbn [negb]; [|reflexivity].
  change (editWithDefaults (editWithDefaults a)) with (editWithDefaults a).
  change (e_size (editWithDefaults a)) with (e_size a).
  change (e_image (editWithDefaults a)) with (e_image a).
  change (e_mask (editWithDefaults a)) with (e_mask a).
  cbn [offending]. unfold rejectedInput.
  destruct (negb (absolutePathCheck (Some (e_image a)))
            && negb (base64Check (Some (e_image a)))); [reflexivity|].
  rewrite (shape_size_accepted _ (editShape_size _ H)).
  destruct (e_mask a) as [m|]; [|reflexivity].
  cbn [truthyOpt].
  destruct (truthy m) eqn:Hm.
  - cbn [andb].
    destruct (negb (absolutePathCheck (Some m)) && negb (base64Check (Some m)));
      reflexivity.
  - destruct m; [|discriminate]. reflexivity.
Qed.

(** The course of a call of either tool: it fails before the upstream
    call; or the upstream call fails; or the upstream call answers and the
    answer is routed.  Before the upstream call only inputs are read. *)
Lemma callTool_run (c : ToolCall) (w : World) :
  exists pre,
    forallb isPreparation pre = true
    /\ ((exists e, run (callTool c) w = (pre, inl e))
        \/ (exists u,
               isUpstreamCall u = true
               /\ upstreamAnswer w [u] = None
               /\ run (callTool c) w = (pre ++ [u], inl UpstreamError))
        \/ (exists u data defaultExt,
               isUpstreamCall u = true
               /\ upstreamAnswer w [u] = Some data
               /\ run (callTool c) w =
                    deliver (defaultPrefix c) defaultExt (filePathRule c)
                      (outputOrDefault (outputArg c)) (fileOutputArg c)
                      (filenameArg c)
                      (imagesOf (imageMime c) (imageExt c) data)
                      w (pre ++ [u]))).
Proof.
  destruct c as [a|a]; cbn [callTool].
  - exists []. split; [reflexivity|].
    destruct (createShapeIssues a) eqn:Hs.
    + rewrite (createImage_validated a w Hs).
      destruct (transparentMismatch _ _).
      * left. eexists; reflexivity.
      * unfold run. rewrite createImageBody_run. cbv zeta.
        set (params := createImageParams _ _).
        destruct (imagesGenerate w params) as [data|] eqn:Hg.
        -- right. right. exists (Generate params), data.
           eexists. split; [reflexivity|]. split; [exact Hg|]. reflexivity.
        -- right. left. exists (Generate params).
           split; [reflexivity|]. split; [exact Hg|]. reflexivity.
    + left. rewrite createImage_shape_rejected by (rewrite Hs; discriminate).
      eexists; reflexivity.
  - destruct (editShapeIssues a) eqn:Hs.
    + rewrite (editImage_validated a w Hs).
      destruct (negb (editImageSchemaRefine a));
        [exists []; split; [reflexivity|]; left; eexists; reflexivity|].
      destruct (offending a ImageField);
        [exists []; split; [reflexivity|]; left; eexists; reflexivity|].
      destruct (offending a MaskField);
        [exists []; split; [reflexivity|]; left; eexists; reflexivity|].
      unfold run.
      destruct (editImageBody_run (editWithDefaults a)
                  (parsedSize (e_size a)) w [])
        as [pre [Hpre [[p Hb]|[params Hb]]]]; exists pre;
        (split; [exact Hpre|]).
      * left. rewrite Hb. eexists; reflexivity.
      * rewrite Hb. cbn [app].
        destruct (imagesEdit w params) as [data|] eqn:He.
        -- right. right. exists (Edit params), data, (js "png").
           split; [reflexivity|]. split; [exact He|]. reflexivity.
        -- right. left. exists (Edit params).
           split; [reflexivity|]. split; [exact He|]. reflexivity.
    + exists []. split; [reflexivity|]. left.
      rewrite editImage_shape_rejected by (rewrite Hs; discriminate).
      eexists; reflexivity.
Qed.

Lemma upstreamAnswer_call (w : World) (u : Event) (rest : list Event) :
  isUpstreamCall u = true ->
  upstreamAnswer w (u :: rest) = upstreamAnswer w [u].
Proof. destruct u; try discriminate; reflexivity. Qed.

Lemma upstreamAnswer_none (w : World) (pre : list Event) :
  forallb isPreparation pre = true -> upstreamAnswer w pre = None.
Proof.
  intros H. rewrite <- (app_nil_r pre).
  rewrite (upstreamAnswer_preparation w _ [] H). reflexivity.
Qed.


(** What routing leaves to observe.  Inline: the trace is untouched and
    the response holds the payloads.  File: after at most a [mkdir], files
    are written, in the order of the payloads and up to the first write
    that fails; the response, when there is one, names all of them. *)
Lemma deliver_observed (prefix : string) (defaultExt : jsstring)
    (filePathOf : jsstring -> nat -> nat -> Image -> jsstring)
    (output : OutputMode) (file_output filename : option jsstring)
    (images : list Image) (w : World) (tr : list Event) :
  let result :=
    deliver prefix defaultExt filePathOf output file_output filename images
      w tr in
  match effectiveOutput output images with
  | Base64Output => result = (tr, inr (inlineContent images))
  | FileOutput =>
      exists (basePath : jsstring) (pre : list Event) (k : nat)
             (evs : list Event),
        forallb isPreparation pre = true
        /\ (truthyOpt file_output = true ->
            file_output = Some basePath /\ pre = [])
        /\ fst result = tr ++ pre ++ evs
        /\ forallb isWrite evs = true
        /\ writtenPaths evs
           = firstn k
               (filePaths (filePathOf basePath (List.length images)) 0 images)
        /\ (images <> [] -> (1 <= k)%nat)
        /\ match snd result with
           | inr content =>
               k = List.length images
               /\ content
                  = List.map savedText
                      (filePaths (filePathOf basePath (List.length images))
                         0 images)
           | inl e => exists p, e = FsError p
           end
  end.
Proof.
  cbv zeta. destruct (effectiveOutput output images) eqn:He.
  - apply deliver_inline, He.
  - destruct (deliver_file prefix defaultExt filePathOf output file_output
                filename images w tr He) as [basePath [pre [Hpre [Hfo Hrun]]]].
    destruct (writeImages_run (filePathOf basePath (List.length images))
                images 0 w (tr ++ pre))
      as [k [evs [Htr [Hev [Hwp [Hk Hres]]]]]].
    exists basePath, pre, k, evs. rewrite Hrun.
    repeat split; try assumption; try (apply Hfo; assumption).
    rewrite Htr, <- app_assoc. reflexivity.
Qed.

(** Routing only extends the trace, and with no upstream call. *)
Lemma deliver_extends (prefix : string) (defaultExt : jsstring)
    (filePathOf : jsstring -> nat -> nat -> Image -> jsstring)
    (output : OutputMode) (file_output filename : option jsstring)
    (images : list Image) (w : World) (tr : list Event) :
  exists evs,
    fst (deliver prefix defaultExt filePathOf output file_output filename
           images w tr) = tr ++ evs.
Proof.
  pose proof (deliver_observed prefix defaultExt filePathOf output
                file_output filename images w tr) as H.
  cbv zeta in H. destruct (effectiveOutput output images).
  - rewrite H. exists []. rewrite app_nil_r. reflexivity.
  - destruct H as [basePath [pre [k [evs [_ [_ [H _]]]]]]].
    exists (pre ++ evs). exact H.
Qed.

(** A run in which the upstream API answered is the routing of that
    answer; in any other run nothing is written and the call fails. *)
Lemma callTool_answer (c : ToolCall) (w : World) :
  match upstreamAnswer w (fst (run (callTool c) w)) with
  | Some data =>
      exists tr0 defaultExt,
        writtenPaths tr0 = []
        /\ run (callTool c) w =
             deliver (defaultPrefix c) defaultExt (filePathRule c)
               (outputOrDefault (outputArg c)) (fileOutputArg c)
               (filenameArg c) (imagesOf (imageMime c) (imageExt c) data)
               w tr0
  | None =>
      writtenPaths (fst (run (callTool c) w)) = []
      /\ exists e, snd (run (callTool c) w) = inl e
  end.
Proof.
  destruct (callTool_run c w)
    as [pre [Hpre [[e H]|[[u [Hu [Hans H]]]|[u [data [dext [Hu [Hans H]]]]]]]]].
  - rewrite H. cbn [fst snd]. rewrite (upstreamAnswer_none w _ Hpre).
    split; [apply preparation_no_write, Hpre | eexists; reflexivity].
  - rewrite H. cbn [fst snd].
    rewrite (upstreamAnswer_preparation w _ _ Hpre), Hans.
    split; [|eexists; reflexivity].
    rewrite writtenPaths_app, (preparation_no_write _ Hpre).
    destruct u; try discriminate; reflexivity.
  - destruct (deliver_extends (defaultPrefix c) dext (filePathRule c)
                (outputOrDefault (outputArg c)) (fileOutputArg c)
                (filenameArg c) (imagesOf (imageMime c) (imageExt c) data)
                w (pre ++ [u])) as [evs Hext].
    assert (Hfst : fst (run (callTool c) w) = (pre ++ [u]) ++ evs)
      by (rewrite H; exact Hext).
    rewrite Hfst, <- app_assoc.
    rewrite (upstreamAnswer_preparation w _ _ Hpre). cbn [app].
    rewrite (upstreamAnswer_call w u _ Hu), Hans.
    exists (pre ++ [u]), dext. split; [|exact H].
    rewrite writtenPaths_app, (preparation_no_write _ Hpre).
    destruct u; try discriminate; reflexivity.
Qed.

Lemma fold_left_add_shift {A} (f : A -> N) (l : list A) (acc : N) :
  fold_left (fun sum x => sum + f x) l acc
  = acc + fold_left (fun sum x => sum + f x) l 0.
Proof.
  revert acc. induction l as [|x l IH]; intros acc; cbn [fold_left].
  - lia.
  - rewrite (IH (acc + f x)), (IH (0 + f x)). lia.
Qed.

(** For payloads that are encodings, the size the handlers compute is the
    number of bytes encoded. *)
Lemma totalBase64Size_encode (mime extension : jsstring)
    (Bs : list (list byte)) :
  totalBase64Size (imagesOf mime extension (List.map Base64.encode Bs))
  = totalBytes Bs.
Proof.
  unfold totalBase64Size, totalBytes, imagesOf.
  induction Bs as [|B Bs IH]; [reflexivity|].
  cbn [List.map fold_left b64].
  rewrite (fold_left_add_shift (fun img => Base64.byteLength (b64 img))).
  rewrite (fold_left_add_shift (fun B => N.of_nat (List.length B))).
  rewrite IH, Base64Facts.byteLength_encode. reflexivity.
Qed.

Lemma inlineContent_imagesOf (mime extension : jsstring)
    (data : list jsstring) :
  inlineContent (imagesOf mime extension data) = inlineResponse mime data.
Proof.
  unfold inlineContent, imagesOf, inlineResponse. rewrite map_map.
  reflexivity.
Qed.

(* ------------------------------------------------------------------ *)
(** ** Delivery mode                                                   *)
(* ------------------------------------------------------------------ *)

Lemma startsWith_app (p s : jsstring) : startsWith (p ++ s) p = true.
Proof.
  induction p as [|c p IH]; [destruct s; reflexivity|].
  cbn. rewrite N.eqb_refl. exact IH.
Qed.



Lemma inlineResponse_no_reference (mime : jsstring) (data : list jsstring) :
  existsb isFileReference (inlineResponse mime data) = false.
Proof. induction data as [|b data IH]; [reflexivity | exact IH]. Qed.

Lemma totalBase64Size_imagesOf (mime extension : jsstring)
    (data : list jsstring) :
  totalBase64Size (imagesOf mime extension data) = aggregateSize data.
Proof.
  unfold totalBase64Size, aggregateSize, imagesOf.
  generalize 0. induction data as [|b data IH]; intros acc;
    [reflexivity | apply IH].
Qed.

(** For payloads that are encodings the aggregate size is the number of
    bytes encoded, which is also the number of bytes decoding gives. *)
Lemma aggregateSize_encode (Bs : list (list byte)) :
  aggregateSize (List.map Base64.encode Bs) = totalBytes Bs
  /\ List.map Base64.decode (List.map Base64.encode Bs) = Bs.
Proof.
  split.
  - rewrite <- (totalBase64Size_imagesOf [] []). apply totalBase64Size_encode.
  - rewrite map_map. rewrite <- (map_id Bs) at 2.
    apply map_ext. apply Base64Facts.decode_encode.
Qed.




(** Leaving [output] out is asking for inline delivery. *)
Lemma omitted_output_is_inline (c : ToolCall) (w : World) :
  outputArg c = None ->
  run (callTool c) w = run (callTool (withOutput (Some Base64Output) c)) w.
Proof.
  destruct c as [a|a]; cbn [outputArg withOutput callTool]; intros H.
  - unfold run, createImage.
    match goal with
    | |- _ = match createShapeIssues ?a' with _ => _ end _ _ =>
        change (createShapeIssues a') with (createShapeIssues a);
        replace (createWithDefaults a') with (createWithDefaults a)
          by (unfold createWithDefaults; rewrite H; reflexivity)
    end.
    reflexivity.
  - unfold run, editImage.
    match goal with
    | |- _ = match editShapeIssues ?a' with _ => _ end _ _ =>
        change (editShapeIssues a') with (editShapeIssues a);
        replace (editWithDefaults a') with (editWithDefaults a)
          by (unfold editWithDefaults; rewrite H; reflexivity)
    end.
    reflexivity.
Qed.

(** C10.  For every invocation of [create-image] or [edit-image]: when
    the [output] argument is left out the invocation runs as one that asks
    for inline delivery; and a file is written, or the response refers to
    a file, only if file delivery was requested or the payloads the
    upstream API returned exceed the size threshold. *)
Theorem file_delivery_only_when_due (c : ToolCall) (w : World) :
  (outputArg c = None ->
   run (callTool c) w = run (callTool (withOutput (Some Base64Output) c)) w)
  /\ (writtenPaths (fst (run (callTool c) w)) <> []
      \/ (exists content,
             snd (run (callTool c) w) = inr content
             /\ existsb isFileReference content = true) ->
      outputArg c = Some FileOutput
      \/ exists data,
           upstreamAnswer w (fst (run (callTool c) w)) = Some data
           /\ 1048576 < aggregateSize data).
Proof.
  split; [apply omitted_output_is_inline|].
  intros Hfile.
  pose proof (callTool_answer c w) as Hrun.
  destruct (upstreamAnswer w (fst (run (callTool c) w))) as [data|].
  - destruct Hrun as [tr0 [dext [Hw0 Hrun]]].
    pose proof (deliver_observed (defaultPrefix c) dext (filePathRule c)
                  (outputOrDefault (outputArg c)) (fileOutputArg c)
                  (filenameArg c)
                  (imagesOf (imageMime c) (imageExt c) data) w tr0) as Hobs.
    cbv zeta in Hobs. rewrite <- Hrun in Hobs.
    unfold effectiveOutput in Hobs.
    rewrite totalBase64Size_imagesOf in Hobs.
    destruct (outputArg c) as [[|]|] eqn:Hout; cbn [outputOrDefault] in Hobs.
    + destruct (MAX_RESPONSE_SIZE <? aggregateSize data) eqn:Hov.
      * right. exists data. split; [reflexivity|].
        apply N.ltb_lt. exact Hov.
      * exfalso. rewrite Hobs in Hfile. cbn [fst snd] in Hfile.
        destruct Hfile as [Hf|[content [Hc Hf]]]; [contradiction|].
        inversion Hc; subst content.
        rewrite inlineContent_imagesOf, inlineResponse_no_reference in Hf.
        discriminate.
    + left. reflexivity.
    + destruct (MAX_RESPONSE_SIZE <? aggregateSize data) eqn:Hov.
      * right. exists data. split; [reflexivity|].
        apply N.ltb_lt. exact Hov.
      * exfalso. rewrite Hobs in Hfile. cbn [fst snd] in Hfile.
        destruct Hfile as [Hf|[content [Hc Hf]]]; [contradiction|].
        inversion Hc; subst content.
        rewrite inlineContent_imagesOf, inlineResponse_no_reference in Hf.
        discriminate.
  - exfalso. destruct Hrun as [Hw0 [e He]].
    destruct Hfile as [Hf|[content [Hc _]]]; [contradiction|].
    rewrite He in Hc. discriminate.
Qed.

Lemma file_delivery_only_when_due_witness :
  outputArg
    (CreateImage
       (createTo FileOutput (Some (js "/tmp/x.png")) None
          (createOnly (js "a red cat"))))
  = Some FileOutput
  \/ exists data,
       upstreamAnswer (sampleWorld [Base64.encode helloBytes])
         (fst (run (callTool
                      (CreateImage
                         (createTo FileOutput (Some (js "/tmp/x.png")) None
                            (createOnly (js "a red cat")))))
                 (sampleWorld [Base64.encode helloBytes])))
       = Some data
       /\ 1048576 < aggregateSize data.
Proof.
  apply (proj2 (file_delivery_only_when_due
                  (CreateImage
                     (createTo FileOutput (Some (js "/tmp/x.png")) None
                        (createOnly (js "a red cat"))))
                  (sampleWorld [Base64.encode helloBytes]))).
  left. vm_compute. discriminate.
Defined.

(* ------------------------------------------------------------------ *)
(** ** File names                                                      *)
(* ------------------------------------------------------------------ *)
















(* ------------------------------------------------------------------ *)
(** ** Validation                                                      *)
(* ------------------------------------------------------------------ *)

Lemma snoc_not_nil {A} (l : list A) (x : A) : l ++ [x] <> [].
Proof. destruct l; discriminate. Qed.

(** A [file_output] that is not empty and not absolute fails the shape of
    either tool. *)
Lemma relative_file_output_rejected (c : ToolCall) (w : World)
    (p : jsstring) :
  fileOutputArg c = Some p -> p <> [] ->
  startsWith p (js "/") = false -> driveLetterPrefix p = false ->
  exists issues, run (callTool c) w = ([], inl (InvalidArguments issues)).
Proof.
  intros Hp Hne Hs Hd.
  assert (Ht : truthy p = true) by (apply truthy_nonempty; exact Hne).
  destruct c as [a|a]; cbn [fileOutputArg callTool] in *.
  - exists (createShapeIssues a). apply createImage_shape_rejected.
    unfold createShapeIssues. rewrite Hp. cbn [optStr].
    unfold createFileOutputRefine. rewrite Ht, Hs, Hd. cbn [negb issueIf].
    rewrite !app_assoc. apply snoc_not_nil.
  - exists (editShapeIssues a). apply editImage_shape_rejected.
    unfold editShapeIssues. rewrite Hp. cbn [optStr].
    unfold absolutePathCheck. cbn [truthyOpt]. rewrite Ht, Hs, Hd.
    cbn [negb issueIf]. rewrite !app_assoc. apply snoc_not_nil.
Qed.

(** [edit-image] asked for file delivery without a [file_output]. *)
Lemma edit_missing_file_output_rejected (a : EditArgs) (w : World) :
  e_output a = Some FileOutput -> e_file_output a = None ->
  exists e,
    run (editImage a) w = ([], inl e) /\ errorKind e = InvalidParameterKind.
Proof.
  intros Ho Hf. destruct (editShapeIssues a) eqn:Hs.
  - rewrite (editImage_validated a w Hs).
    unfold editImageSchemaRefine. rewrite Ho, Hf. cbn [outputOrDefault negb].
    eexists. split; reflexivity.
  - rewrite editImage_shape_rejected by (rewrite Hs; discriminate).
    eexists. split; reflexivity.
Qed.

(** A [create-image] call that passes its checks reaches the upstream
    API. *)
Lemma createImage_reaches_upstream (a : CreateArgs) (w : World) :
  createShapeIssues a = [] ->
  transparentMismatch (c_background a) (c_output_format a) = false ->
  callsUpstream (fst (run (createImage a) w)) = true.
Proof.
  intros Hs Ht. rewrite (createImage_validated a w Hs), Ht.
  unfold run. rewrite createImageBody_run. cbv zeta. cbn [app].
  set (params := createImageParams _ _).
  destruct (imagesGenerate w params) as [data|]; [|reflexivity].
  match goal with
  | |- callsUpstream (fst (deliver ?p ?d ?f ?o ?fo ?fn ?im w ?tr)) = true =>
      destruct (deliver_extends p d f o fo fn im w tr) as [evs ->]
  end.
  reflexivity.
Qed.

(** C2, as amended.  An [edit-image] invocation that asks for file
    delivery and has no [file_output], and an invocation of either tool
    that asks for file delivery with a [file_output] that is a non-empty
    string and not an absolute path, fails with an InvalidParameter error
    before any upstream call.  A [create-image] invocation that asks for
    file delivery and has no [file_output] is not rejected for it: when
    its other arguments are accepted it reaches the upstream API (and
    writes to the default directory). *)
Theorem file_output_checked :
  (forall (a : EditArgs) (w : World),
      e_output a = Some FileOutput -> e_file_output a = None ->
      exists e,
        run (editImage a) w = ([], inl e)
        /\ errorKind e = InvalidParameterKind)
  /\ (forall (c : ToolCall) (w : World) (p : jsstring),
         outputArg c = Some FileOutput ->
         fileOutputArg c = Some p -> p <> [] ->
         startsWith p (js "/") = false -> driveLetterPrefix p = false ->
         exists e,
           run (callTool c) w = ([], inl e)
           /\ errorKind e = InvalidParameterKind)
  /\ (forall (a : CreateArgs) (w : World),
         c_output a = Some FileOutput -> c_file_output a = None ->
         createShapeIssues a = [] ->
         transparentMismatch (c_background a) (c_output_format a) = false ->
         callsUpstream (fst (run (createImage a) w)) = true).
Proof.
  split; [exact edit_missing_file_output_rejected|]. split.
  - intros c w p _ Hp Hne Hs Hd.
    destruct (relative_file_output_rejected c w Hp Hne Hs Hd)
      as [issues Hrun].
    eexists. split; [exact Hrun | reflexivity].
  - intros a w _ _. apply createImage_reaches_upstream.
Qed.

Lemma file_output_checked_witness :
  exists e,
    run (callTool
           (CreateImage
              (createTo FileOutput (Some (js "pictures/x.png")) None
                 (createOnly (js "a red cat")))))
      (sampleWorld [js "aGVsbG8="])
    = ([], inl e)
    /\ errorKind e = InvalidParameterKind.
Proof.
  apply (proj1 (proj2 file_output_checked)
           (CreateImage
              (createTo FileOutput (Some (js "pictures/x.png")) None
                 (createOnly (js "a red cat"))))
           (sampleWorld [js "aGVsbG8="]) (js "pictures/x.png")).
  - reflexivity.
  - reflexivity.
  - discriminate.
  - reflexivity.
  - reflexivity.
Defined.

(** C2, the claim as stated fails.  [create-image] asked for file
    delivery with no [file_output] is not rejected: the upstream API is
    called and the image is written to the default directory.  And an
    empty [file_output], which is not an absolute path, is let through by
    both path checks: [edit-image] asked for file delivery with it calls
    the upstream API and writes to the default directory as well. *)
Lemma file_output_not_always_required :
  (c_output (createTo FileOutput None None (createOnly (js "a red cat")))
     = Some FileOutput
   /\ c_file_output
        (createTo FileOutput None None (createOnly (js "a red cat")))
      = None
   /\ callsUpstream
        (fst (run (createImage
                     (createTo FileOutput None None
                        (createOnly (js "a red cat"))))
                (sampleWorld [js "aGVsbG8="]))) = true
   /\ snd (run (createImage
                  (createTo FileOutput None None
                     (createOnly (js "a red cat"))))
             (sampleWorld [js "aGVsbG8="]))
      = inr [savedText
               (js "/home/user/Pictures/gpt-image/openai_image_1700000000000.png")])
  /\ (callsUpstream
        (fst (run (editImage
                     (editTo FileOutput (Some [])
                        (editOnly (js "data:image/png;base64,aGVsbG8=")
                           (js "add a hat"))))
                (sampleWorld [js "aGVsbG8="]))) = true
      /\ snd (run (editImage
                     (editTo FileOutput (Some [])
                        (editOnly (js "data:image/png;base64,aGVsbG8=")
                           (js "add a hat"))))
                (sampleWorld [js "aGVsbG8="]))
         = inr [savedText
                  (js "/home/user/Pictures/gpt-image/openai_image_edit_1700000000000.png")]).
Proof. repeat split; reflexivity. Qed.

(** C6, as amended.  A [create-image] invocation with a transparent
    background and an [output_format] that is given and is neither png nor
    webp fails with an InvalidParameter error before any upstream call;
    one that leaves [output_format] out is not rejected for its
    background. *)
Theorem transparent_needs_png_or_webp :
  (forall (a : CreateArgs) (w : World) (f : OutputFormat),
      c_background a = Some BgTransparent ->
      c_output_format a = Some f -> f <> Png -> f <> Webp ->
      exists e,
        run (createImage a) w = ([], inl e)
        /\ errorKind e = InvalidParameterKind
        /\ (createShapeIssues a = [] -> e = TransparentFormat))
  /\ (forall (a : CreateArgs) (w : World),
         c_background a = Some BgTransparent ->
         c_output_format a = None ->
         createShapeIssues a = [] ->
         callsUpstream (fst (run (createImage a) w)) = true).
Proof.
  split.
  - intros a w f Hb Hf Hpng Hwebp.
    destruct (createShapeIssues a) eqn:Hs.
    + rewrite (createImage_validated a w Hs), Hb, Hf.
      destruct f; try contradiction. cbn [transparentMismatch negb].
      eexists. repeat split.
    + rewrite createImage_shape_rejected by (rewrite Hs; discriminate).
      eexists. split; [reflexivity|]. split; [reflexivity | discriminate].
  - intros a w Hb Hf Hs. apply createImage_reaches_upstream; [exact Hs|].
    rewrite Hb, Hf. reflexivity.
Qed.

Lemma transparent_needs_png_or_webp_witness :
  exists e,
    run (createImage
           (withBackground BgTransparent
              (createTo Base64Output None (Some Jpeg)
                 (createOnly (js "a red cat")))))
      (sampleWorld [js "aGVsbG8="])
    = ([], inl e)
    /\ errorKind e = InvalidParameterKind
    /\ (createShapeIssues
          (withBackground BgTransparent
             (createTo Base64Output None (Some Jpeg)
                (createOnly (js "a red cat")))) = [] ->
        e = TransparentFormat).
Proof.
  apply (proj1 transparent_needs_png_or_webp
           (withBackground BgTransparent
              (createTo Base64Output None (Some Jpeg)
                 (createOnly (js "a red cat"))))
           (sampleWorld [js "aGVsbG8="]) Jpeg);
    [reflexivity | reflexivity | discriminate | discriminate].
Defined.

(** C6, the claim as stated fails: with a transparent background and no
    [output_format], which is then neither png nor webp, the invocation is
    accepted and the upstream API is called. *)
Lemma transparent_without_format_accepted :
  c_background (withBackground BgTransparent (createOnly (js "a red cat")))
    = Some BgTransparent
  /\ c_output_format (withBackground BgTransparent (createOnly (js "a red cat")))
     = None
  /\ run (createImage
            (withBackground BgTransparent (createOnly (js "a red cat"))))
       (sampleWorld [js "aGVsbG8="])
     = ([Generate
           (createImageParams
              (withBackground BgTransparent (createOnly (js "a red cat")))
              None)],
        inr [ImageContent (js "aGVsbG8=") (js "image/png")]).
Proof. repeat split; reflexivity. Qed.

(** What the handler of [edit-image] rejects: a string that is not empty,
    does not begin with [/] or with a drive letter, is not made of base64
    text (the alphabet, [=], CR and LF) alone and does not begin with
    [data:image/]. *)
Lemma rejectedInput_spec (val : jsstring) :
  rejectedInput val = true <->
  val <> []
  /\ startsWith val (js "/") = false
  /\ driveLetterPrefix val = false
  /\ forallb is_base64_text val = false
  /\ startsWith val (js "data:image/") = false.
Proof.
  unfold rejectedInput, absolutePathCheck, base64Check.
  destruct val as [|c v].
  - cbn. split; [discriminate | intros [H _]; contradiction].
  - cbn [truthyOpt truthy negb andb].
    destruct (startsWith (c :: v) (js "/"));
      destruct (driveLetterPrefix (c :: v));
      destruct (forallb is_base64_text (c :: v));
      destruct (startsWith (c :: v) (js "data:image/")); cbn;
      split; try discriminate; try (intros [_ [? [? [? ?]]]]; discriminate);
      intros _; repeat split; discriminate.
Qed.

(** C5, as amended.  For every [edit-image] invocation that passes the
    validation of its arguments (the shape and the refinement on
    [file_output]) and whose image string, or mask string when a mask is
    given, is rejected by the handler as neither a path nor encoded data
    (which a non-empty string is when it is neither absolute nor base64
    text nor a data URL of an image), the invocation fails with an
    InvalidInput error whose message names such a field, the image when
    both are at fault and the mask only when the image is not, and nothing
    else happens: no file is read and no upstream call is made. *)
Theorem rejected_input_fails :
  (forall (a : EditArgs) (w : World),
      editShapeIssues a = [] -> editImageSchemaRefine a = true ->
      offending a ImageField = true \/ offending a MaskField = true ->
      exists f,
        offending a f = true
        /\ (offending a ImageField = true -> f = ImageField)
        /\ run (editImage a) w = ([], inl (InvalidInput f))
        /\ errorKind (InvalidInput f) = InvalidInputKind
        /\ thrownMessage (InvalidInput f)
           = Some (js "Invalid '" ++ fieldName f
                   ++ js "' input: Must be an absolute path or a base64-encoded string."))
  /\ (forall val : jsstring,
         rejectedInput val = true <->
         val <> []
         /\ startsWith val (js "/") = false
         /\ driveLetterPrefix val = false
         /\ forallb is_base64_text val = false
         /\ startsWith val (js "data:image/") = false).
Proof.
  split; [|exact rejectedInput_spec].
  intros a w Hs Hr Hoff. rewrite (editImage_validated a w Hs), Hr.
  cbn [negb].
  destruct (offending a ImageField) eqn:Hi.
  - exists ImageField. split; [exact Hi|]. repeat split.
  - destruct Hoff as [Hoff|Hoff]; [discriminate|].
    rewrite Hoff. exists MaskField. split; [exact Hoff|].
    split; [discriminate|]. repeat split.
Qed.

Lemma rejected_input_fails_witness :
  exists f,
    offending (editOnly (js "not-a-path-not-base64!!") (js "add a hat")) f
      = true
    /\ (offending (editOnly (js "not-a-path-not-base64!!") (js "add a hat"))
          ImageField = true -> f = ImageField)
    /\ run (editImage
              (editOnly (js "not-a-path-not-base64!!") (js "add a hat")))
         (sampleWorld [js "aGVsbG8="])
       = ([], inl (InvalidInput f))
    /\ errorKind (InvalidInput f) = InvalidInputKind
    /\ thrownMessage (InvalidInput f)
       = Some (js "Invalid '" ++ fieldName f
               ++ js "' input: Must be an absolute path or a base64-encoded string.").
Proof.
  apply (proj1 rejected_input_fails
           (editOnly (js "not-a-path-not-base64!!") (js "add a hat"))
           (sampleWorld [js "aGVsbG8="]));
    [reflexivity | reflexivity | left; reflexivity].
Defined.

(** C5, the claim as stated fails, in two ways.  The validation of the
    arguments comes first: an image that is neither a path nor encoded
    data, sent with a request for file delivery that names no file, fails
    on [file_output], as InvalidParameter.  And the empty string, which is
    neither an absolute path nor encoded data, passes the check as if it
    were a path: the handler goes on to read a file of that name. *)
Lemma rejected_input_not_always_reported :
  (rejectedInput (js "not-a-path-not-base64!!") = true
   /\ exists issues,
        run (editImage
               (editTo FileOutput None
                  (editOnly (js "not-a-path-not-base64!!") (js "add a hat"))))
          (sampleWorld [js "aGVsbG8="])
        = ([], inl (ZodError issues))
        /\ errorKind (ZodError issues) = InvalidParameterKind)
  /\ (startsWith [] (js "/") = false
      /\ driveLetterPrefix [] = false
      /\ base64Check (Some []) = false
      /\ run (editImage (editOnly [] (js "add a hat")))
           (sampleWorld [js "aGVsbG8="])
         = ([ReadFile []], inl (FsError []))).
Proof.
  split.
  - split; [reflexivity|]. eexists. split; reflexivity.
  - repeat split; reflexivity.
Qed.

(* ------------------------------------------------------------------ *)
(** ** Image input resolver                                            *)
(* ------------------------------------------------------------------ *)

Section Resolver.

Import Base64Facts.

Lemma base64_text_no_drive (s : jsstring) :
  Forall (fun c => is_base64_text c = true) s -> driveLetterPrefix s = false.
Proof.
  intros H. destruct s as [|l [|c [|sl t]]]; try reflexivity.
  inversion H as [|? ? _ H1]; subst. inversion H1 as [|? ? Hc _]; subst.
  cbn [driveLetterPrefix].
  assert (E : (c =? 58) = false) by charclass.
  rewrite E, andb_false_r. reflexivity.
Qed.

Lemma base64_text_no_data_url (s : jsstring) :
  Forall (fun c => is_base64_text c = true) s ->
  startsWith s (js "data:image/") = false.
Proof.
  intros H.
  destruct s as [|c1 [|c2 [|c3 [|c4 [|c5 t]]]]];
    cbn; rewrite ?andb_false_r; try reflexivity.
  repeat match goal with
         | Hf : Forall _ (_ :: _) |- _ => inversion Hf; clear Hf; subst
         end.
  assert (E : (c5 =? 58) = false) by charclass.
  rewrite E, ?andb_false_r. reflexivity.
Qed.

Lemma encode_base64_text (B : list byte) :
  Forall (fun c => is_base64_text c = true) (Base64.encode B).
Proof.
  eapply Forall_impl; [|apply encode_text]. intros c [H _]. exact H.
Qed.

Lemma encode_no_line_terminator (B : list byte) :
  forallb (fun c => negb (is_line_terminator c)) (Base64.encode B) = true.
Proof.
  apply forallb_forall. intros c Hc.
  pose proof (encode_text B) as H. rewrite Forall_forall in H.
  destruct (H c Hc) as [_ E]. rewrite E. reflexivity.
Qed.

(** The encoding of a buffer is not taken for a path when the buffer is
    not empty and its first byte is below 0xFC. *)
Lemma encode_not_a_path (a : byte) (B : list byte) :
  Byte.to_N a < 252 ->
  absolutePathCheck (Some (Base64.encode (a :: B))) = false.
Proof.
  intros Ha.
  pose proof (encode_base64_text (a :: B)) as Htext.
  pose proof (base64_text_no_drive Htext) as Hd.
  destruct (encode_head a B) as [t Ht]. rewrite Ht in *.
  unfold absolutePathCheck. cbn [truthyOpt truthy negb].
  rewrite Hd.
  assert (Hs : (Base64.sextetChar (Byte.to_N a / 4) =? 47) = false).
  { pose proof
      (below64
         (fun n => (n =? 63) || negb (Base64.sextetChar n =? 47))) as H.
    assert (Hn : Byte.to_N a / 4 < 64) by lia.
    specialize (H eq_refl _ Hn). cbv beta in H.
    apply orb_true_iff in H. destruct H as [H|H].
    - apply N.eqb_eq in H. lia.
    - apply negb_true_iff in H. exact H. }
  set (c := Base64.sextetChar (Byte.to_N a / 4)) in *.
  change (startsWith (c :: t) (js "/")) with ((c =? 47) && startsWith t []).
  rewrite Hs. reflexivity.
Qed.

(** Round trip, raw base64: the encoding of a buffer that does not begin
    with a byte of 0xFC or above resolves to the buffer, typed
    image/png. *)
Theorem inputToFile_raw_base64 (a : byte) (B : list byte) (idx : N)
    (w : World) :
  Byte.to_N a < 252 ->
  run (inputToFile (Base64.encode (a :: B)) idx) w
  = ([], inr {| fileBytes := a :: B;
                fileName := Some (js "input_" ++ decimal idx ++ js ".png");
                fileType := js "image/png" |}).
Proof.
  intros Ha. unfold run, inputToFile.
  rewrite (encode_not_a_path a B Ha).
  rewrite (base64_text_no_data_url (encode_base64_text (a :: B))).
  unfold ret. rewrite decode_encode. reflexivity.
Qed.

Lemma takeWhile_stop (cls : codeunit -> bool) (s rest : jsstring)
    (c : codeunit) :
  Forall (fun x => cls x = true) s -> cls c = false ->
  takeWhile cls (s ++ c :: rest) = s
  /\ dropWhile cls (s ++ c :: rest) = c :: rest.
Proof.
  intros Hs Hc. induction Hs as [|x s Hx Hs IH]; cbn.
  - rewrite Hc. split; reflexivity.
  - rewrite Hx. destruct IH as [IH1 IH2]. rewrite IH1, IH2.
    split; reflexivity.
Qed.

Lemma split_no_separator (sep : codeunit) (s : jsstring) :
  Forall (fun x => (x =? sep) = false) s -> JS.split sep s = [s].
Proof.
  induction 1 as [|x s Hx Hs IH]; cbn; [reflexivity|].
  rewrite Hx, IH. reflexivity.
Qed.

Lemma word_no_slash (subtype : jsstring) :
  Forall (fun c => is_word c = true) subtype ->
  Forall (fun x => (x =? 47) = false) subtype.
Proof.
  intros H. eapply Forall_impl; [|exact H]. intros c Hc.
  cbv beta. charclass.
Qed.


Lemma matchDataUrl_wrap (subtype payload : jsstring) :
  subtype <> [] -> Forall (fun c => is_word c = true) subtype ->
  forallb (fun c => negb (is_line_terminator c)) payload = true ->
  matchDataUrl (js "data:image/" ++ subtype ++ js ";base64," ++ payload)
  = Some (js "image/" ++ subtype, payload).
Proof.
  intros Hne Hword Hlt. unfold matchDataUrl.
  rewrite startsWith_app. cbv zeta.
  match goal with
  | |- context [takeWhile is_word ?x] =>
      pose proof
        (takeWhile_stop is_word (js "base64," ++ payload) 59 Hword eq_refl
         : takeWhile is_word x = subtype
           /\ dropWhile is_word x = js ";base64," ++ payload) as [E1 E2]
  end.
  rewrite E1, E2, startsWith_app.
  rewrite (proj2 (truthy_nonempty subtype) Hne).
  change (skipn 8 (js ";base64," ++ payload)) with payload.
  rewrite Hlt. reflexivity.
Qed.

Lemma mimeSubtype_image (subtype : jsstring) :
  subtype <> [] -> Forall (fun c => is_word c = true) subtype ->
  mimeSubtype (js "image/" ++ subtype) = subtype.
Proof.
  intros Hne Hword. unfold mimeSubtype.
  match goal with
  | |- context [JS.split 47 ?x] =>
      assert (E : JS.split 47 x = [js "image"; subtype])
  end.
  { pose proof (split_no_separator 47 (word_no_slash Hword)) as Hsp.
    cbn. cbn in Hsp. rewrite Hsp. reflexivity. }
  rewrite E, (proj2 (truthy_nonempty subtype) Hne). reflexivity.
Qed.

(** Round trip, data URL: a data URL with a subtype made of word
    characters, wrapping the encoding of a buffer, resolves to the buffer,
    typed with the declared subtype. *)
Theorem inputToFile_data_url (subtype : jsstring) (B : list byte) (idx : N)
    (w : World) :
  subtype <> [] -> Forall (fun c => is_word c = true) subtype ->
  run (inputToFile
         (js "data:image/" ++ subtype ++ js ";base64," ++ Base64.encode B)
         idx) w
  = ([], inr {| fileBytes := B;
                fileName :=
                  Some (js "input_" ++ decimal idx ++ js "." ++ subtype);
                fileType := js "image/" ++ subtype |}).
Proof.
  intros Hne Hword. unfold run, inputToFile.
  match goal with
  | |- context [absolutePathCheck ?x] =>
      change (absolutePathCheck x) with false
  end.
  rewrite startsWith_app.
  rewrite matchDataUrl_wrap
    by first [assumption | apply encode_no_line_terminator].
  unfold ret. rewrite decode_encode.
  rewrite mimeSubtype_image by assumption. reflexivity.
Qed.

End Resolver.

(** C9, where the code departs from the claim: the buffer FF D8 FF, the
    first bytes of every JPEG file, has the encoding [/9j/]; that string
    begins with a slash, so the resolver takes it for an absolute path and
    reads the file of that name instead of decoding it.  The bytes it
    returns are those of the file, or the read fails. *)
Theorem jpeg_base64_read_as_path (w : World) (idx : N) :
  Base64.encode [xff; xd8; xff] = js "/9j/"
  /\ run (inputToFile (Base64.encode [xff; xd8; xff]) idx) w
     = ([ReadFile (js "/9j/")],
        match fileContents w (js "/9j/") with
        | Some bytes =>
            inr {| fileBytes := bytes; fileName := None;
                   fileType := js "image/png" |}
        | None => inl (FsError (js "/9j/"))
        end).
Proof.
  split; [reflexivity|].
  change (Base64.encode [xff; xd8; xff]) with (js "/9j/").
  unfold run, inputToFile.
  change (absolutePathCheck (Some (js "/9j/"))) with true.
  unfold readStream, bind, ask, emit, ret. cbn [app].
  destruct (fileContents w (js "/9j/")); reflexivity.
Qed.
